(** * Layrr coordination layer: formatter, correlated transport, checkpoint manager

    A shallow embedding of
    - [pkg/bridge/bridge.go] ([formatMessage]),
    - [frontend/src/hooks/useWebSocket.ts] ([sendMessage], the socket
      callbacks installed by [connect] and the cleanup of the effect),
    - the [git] package ([GitManager]: [CreateCommit], [GetCommitHistory],
      [CheckoutCommit], [ensureMainBranch]) and its earlier revision
      ([CreateCommit], [CheckoutCommit], [GetCurrentBranch]),
    - the component [GitHistoryModal] ([formatDate], [handleCheckout]) and
      [frontend/src/components/GitCheckpointModal.tsx] ([handleCreate],
      [handleKeyDown]),
    followed by the properties of the specification that concern them and
    by further properties of the code.

    Go strings are byte sequences: they are modelled as [string], whose
    characters are the 256 values of [ascii]; [String.length] is Go's [len]. *)

From Stdlib Require Import String Ascii List ZArith Lia Bool DecimalString.
From stdpp Require Import gmap strings list fin_maps.
Import ListNotations.

Local Open Scope string_scope.
Local Open Scope list_scope.

(* ===================================================================== *)
(** ** Go runtime: the functions of [strings] and [fmt] the sources call *)
(* ===================================================================== *)

Module gostrings.

(** The byte [\n]. *)
Definition LF : ascii := "010"%char.
(** The double-quote byte, written by its code. *)
Definition DQUOTE : ascii := "034"%char.

Definition byte (c : ascii) : N := N_of_ascii c.

(** [strings.ReplaceAll(s, old, new)] for a one-byte [old], the only form
    the sources use ([ReplaceAll(x, "\n", " ")]). *)
Fixpoint ReplaceAll (s : string) (old : ascii) (new : string) : string :=
  match s with
  | EmptyString => EmptyString
  | String c rest =>
      if Ascii.eqb c old then new +:+ ReplaceAll rest old new
      else String c (ReplaceAll rest old new)
  end.

(** The table [asciiSpace] of package [strings]. *)
Definition asciiSpace (c : ascii) : bool :=
  let b := byte c in
  ((9 <=? b) && (b <=? 13) || (b =? 32))%N.

(** Width in bytes of the white-space rune a byte sequence starts with, [0]
    when it starts with none: [unicode.IsSpace] applied to
    [utf8.DecodeRune].  The white-space runes are U+0009..U+000D, U+0020,
    U+0085, U+00A0, U+1680, U+2000..U+200A, U+2028, U+2029, U+202F, U+205F
    and U+3000; an ill-formed sequence decodes to U+FFFD, which is none. *)
Definition spaceWidth (l : list ascii) : nat :=
  match l with
  | [] => 0
  | c1 :: r1 =>
      if asciiSpace c1 then 1
      else
        match r1 with
        | [] => 0
        | c2 :: r2 =>
            let b1 := byte c1 in
            let b2 := byte c2 in
            if ((b1 =? 194) && ((b2 =? 133) || (b2 =? 160)))%N then 2
            else
              match r2 with
              | [] => 0
              | c3 :: _ =>
                  let b3 := byte c3 in
                  if ((b1 =? 225) && (b2 =? 154) && (b3 =? 128))%N then 3
                  else if ((b1 =? 226) && (b2 =? 128) &&
                           ((128 <=? b3) && (b3 <=? 138) || (b3 =? 168)
                            || (b3 =? 169) || (b3 =? 175)))%N then 3
                  else if ((b1 =? 226) && (b2 =? 129) && (b3 =? 159))%N then 3
                  else if ((b1 =? 227) && (b2 =? 128) && (b3 =? 128))%N then 3
                  else 0
              end
        end
  end.

(** The same for the rune a byte sequence ends with
    ([utf8.DecodeLastRune]); the argument is the sequence reversed. *)
Definition lastSpaceWidth (rl : list ascii) : nat :=
  match rl with
  | [] => 0
  | c1 :: r1 =>
      if asciiSpace c1 then 1
      else
        match r1 with
        | [] => 0
        | c2 :: r2 =>
            if Nat.eqb (spaceWidth [c2; c1]) 2 then 2
            else
              match r2 with
              | [] => 0
              | c3 :: _ => if Nat.eqb (spaceWidth [c3; c2; c1]) 3 then 3 else 0
              end
        end
  end.

(** [strings.TrimLeftFunc(s, unicode.IsSpace)]; [fuel] bounds the number of
    runes removed. *)
Fixpoint trimLeft (fuel : nat) (l : list ascii) : list ascii :=
  match fuel with
  | O => l
  | S f =>
      match spaceWidth l with
      | O => l
      | w => trimLeft f (skipn w l)
      end
  end.

(** [strings.TrimRightFunc(s, unicode.IsSpace)], on the reversed bytes. *)
Fixpoint trimRightRev (fuel : nat) (rl : list ascii) : list ascii :=
  match fuel with
  | O => rl
  | S f =>
      match lastSpaceWidth rl with
      | O => rl
      | w => trimRightRev f (skipn w rl)
      end
  end.

(** [strings.TrimSpace]: leading, then trailing, white-space runes removed. *)
Definition TrimSpace (s : string) : string :=
  let l := list_ascii_of_string s in
  let l1 := trimLeft (List.length l) l in
  string_of_list_ascii (rev (trimRightRev (List.length l1) (rev l1))).

(** [strings.Join(elems, sep)]. *)
Fixpoint Join (elems : list string) (sep : string) : string :=
  match elems with
  | [] => EmptyString
  | [e] => e
  | e :: rest => e +:+ sep +:+ Join rest sep
  end.

(** The pieces of [s] around each occurrence of the byte [sep]; [cur] is the
    piece being read, reversed. *)
Fixpoint splitAcc (s : string) (sep : ascii) (cur : list ascii) : list string :=
  match s with
  | EmptyString => [string_of_list_ascii (rev cur)]
  | String c rest =>
      if Ascii.eqb c sep then string_of_list_ascii (rev cur) :: splitAcc rest sep []
      else splitAcc rest sep (c :: cur)
  end.

(** [strings.Split(s, sep)] for a one-byte [sep]. *)
Definition Split (s : string) (sep : ascii) : list string := splitAcc s sep [].

(** [strings.SplitN(s, sep, n)] for a one-byte [sep] and [n > 0]: at most [n]
    pieces, the last one the unsplit remainder. *)
Fixpoint splitNAcc (s : string) (sep : ascii) (n : nat) (cur : list ascii)
  {struct s} : list string :=
  match n with
  | O => []
  | S O => [string_of_list_ascii (rev cur) +:+ s]
  | S m =>
      match s with
      | EmptyString => [string_of_list_ascii (rev cur)]
      | String c rest =>
          if Ascii.eqb c sep then string_of_list_ascii (rev cur) :: splitNAcc rest sep m []
          else splitNAcc rest sep n (c :: cur)
      end
  end.

Definition SplitN (s : string) (sep : ascii) (n : nat) : list string :=
  splitNAcc s sep n [].

(** The verb [%d] of [fmt.Sprintf] on a Go [int]. *)
Definition Itoa (z : Z) : string := NilZero.string_of_int (Z.to_int z).

(** [s[:n]] for [n <= len(s)]. *)
Definition slice_to (s : string) (n : nat) : string := substring 0 n s.

(** [strings.Contains(s, c)] for a one-byte [c]. *)
Definition contains_byte (c : ascii) (s : string) : bool :=
  existsb (Ascii.eqb c) (list_ascii_of_string s).

(** [strings.Repeat(s, count)]. *)
Fixpoint Repeat (s : string) (count : nat) : string :=
  match count with
  | O => EmptyString
  | S n => s +:+ Repeat s n
  end.

(** The number of characters of a UTF-8 text: its bytes other than the
    continuation bytes [10xxxxxx] ([utf8.RuneCountInString] on well-formed
    text). *)
Definition utf8_chars (s : string) : nat :=
  List.length
    (List.filter (fun c => ((byte c <? 128) || (192 <=? byte c))%N)
       (list_ascii_of_string s)).

End gostrings.

(* ===================================================================== *)
(** ** [pkg/bridge/bridge.go]: the instruction formatter                  *)
(* ===================================================================== *)

Module bridge.
Import gostrings.

(** [ElementInfo]: one selected HTML element. *)
Record ElementInfo := {
  TagName : string;
  ID : string;
  Classes : string;
  Selector : string;
  InnerText : string;
  OuterHTML : string
}.

(** [AreaInfo]: the selected area.  The fields are Go [int]s; the formatter
    only prints them. *)
Record AreaInfo := {
  X : Z;
  Y : Z;
  Width : Z;
  Height : Z;
  ElementCount : Z;
  Elements : list ElementInfo
}.

(** [Message]; its field [ID] is named [MsgID] here, next to
    [ElementInfo]'s [ID]. *)
Record Message := {
  MsgID : Z;
  Area : AreaInfo;
  Instruction : string;
  Screenshot : string
}.

(** Lines 110-117: the clause written for a non-empty [InnerText]. *)
Definition innerTextClause (innerText0 : string) : string :=
  if String.eqb innerText0 "" then ""
  else
    let innerText := ReplaceAll innerText0 LF " " in
    let innerText := TrimSpace innerText in
    let innerText :=
      if (50 <? String.length innerText)%nat
      then slice_to innerText 50 +:+ "..." else innerText in
    " text:" +:+ String DQUOTE (innerText +:+ String DQUOTE "").

(** Lines 120-127: the clause written for a non-empty [OuterHTML]. *)
Definition outerHTMLClause (outerHTML0 : string) : string :=
  if String.eqb outerHTML0 "" then ""
  else
    let html := ReplaceAll outerHTML0 LF " " in
    let html := TrimSpace html in
    let html :=
      if (100 <? String.length html)%nat
      then slice_to html 100 +:+ "..." else html in
    " html:" +:+ html.

(** Lines 103-129: the bracketed descriptor of one element. *)
Definition elementDesc (el : ElementInfo) : string :=
  "[" +:+ Selector el +:+ innerTextClause (InnerText el)
      +:+ outerHTMLClause (OuterHTML el) +:+ "]".

(** Line 135: the summary token. *)
Definition moreElements (n : Z) : string :=
  "[+" +:+ Itoa n +:+ " more elements]".

(** Lines 97-98: the area clause. *)
Definition areaClause (a : AreaInfo) : string :=
  "(Selected " +:+ Itoa (ElementCount a) +:+ " elements in "
    +:+ Itoa (Width a) +:+ "x" +:+ Itoa (Height a) +:+ " area:".

(** Lines 101-138: the loop over [msg.Area.Elements].  [i] is the index of
    the head of [els], [total] is [len(msg.Area.Elements)], [parts] the
    slice built so far; the [break] returns. *)
Fixpoint formatElements (i : nat) (total : nat) (els : list ElementInfo)
    (parts : list string) : list string :=
  match els with
  | [] => parts
  | el :: rest =>
      let parts := parts ++ [elementDesc el] in
      if (19 <=? i)%nat && (20 <? total)%nat
      then parts ++ [moreElements (Z.of_nat total - 20)]
      else formatElements (S i) total rest parts
  end.

(** The slice [parts] when [formatMessage] reaches its [return]. *)
Definition formatParts (msg : Message) : list string :=
  let parts := [Instruction msg] in
  let parts := parts ++ [areaClause (Area msg)] in
  let els := Elements (Area msg) in
  let parts := formatElements 0 (List.length els) els parts in
  parts ++ [")"].

(** [formatMessage]. *)
Definition formatMessage (msg : Message) : string :=
  Join (formatParts msg) " ".

(** The strings line 131 appends, in order: the same loop, keeping only
    the element descriptors. *)
Fixpoint loopDescriptors (i : nat) (total : nat) (els : list ElementInfo)
    : list string :=
  match els with
  | [] => []
  | el :: rest =>
      elementDesc el ::
        (if (19 <=? i)%nat && (20 <? total)%nat then []
         else loopDescriptors (S i) total rest)
  end.

Definition emittedDescriptors (msg : Message) : list string :=
  let els := Elements (Area msg) in
  loopDescriptors 0 (List.length els) els.

End bridge.

(* ===================================================================== *)
(** ** [frontend/src/hooks/useWebSocket.ts]: the correlated transport     *)
(* ===================================================================== *)

Module useWebSocket.

(** [WebSocket.readyState]. *)
Inductive ReadyState := CONNECTING | OPEN | CLOSING | CLOSED.

(** An inbound message after [JSON.parse]: the fields the hook reads.
    [data_id] is [None] when [data.id] is absent or no number. *)
Record Data := {
  data_id : option Z;
  data_status : string
}.

(** What the hook writes to the console. *)
Inductive LogEntry :=
| log_registered (id : Z)
| log_sent (id : Z)
| log_not_connected
| log_found (id : Z)
| log_cleanup (id : Z)
| warn_no_handler (id : option Z)
| log_disconnected
| log_reconnecting (delay : Z) (attempt : nat)
| error_max_attempts.

Section Hook.

(** The callers' response callbacks [(data: any) => void], and the payload
    of an outbound message.  A callback is taken to return normally. *)
Variable Handler : Type.
Variable Payload : Type.

(** The refs and state of one [useWebSocket] instance, with the effects it
    has on the outside: what was handed to [ws.send], which callbacks were
    called with what, and the console. *)
Record State := {
  ws : option ReadyState;                 (* wsRef.current, its readyState *)
  isConnected : bool;
  messageHandlers : gmap Z Handler;       (* messageHandlersRef.current *)
  reconnectTimeout : option Z;            (* the pending timer's delay, ms *)
  reconnectAttempts : nat;
  sent : list (Z * Payload);
  calls : list (Handler * Data);
  console : list LogEntry
}.

Definition maxReconnectAttempts : nat := 5.
Definition baseReconnectDelay : Z := 1000.

Definition set_handlers (m : gmap Z Handler) (st : State) : State :=
  {| ws := ws st; isConnected := isConnected st; messageHandlers := m;
     reconnectTimeout := reconnectTimeout st;
     reconnectAttempts := reconnectAttempts st; sent := sent st;
     calls := calls st; console := console st |}.

Definition log (e : LogEntry) (st : State) : State :=
  {| ws := ws st; isConnected := isConnected st;
     messageHandlers := messageHandlers st;
     reconnectTimeout := reconnectTimeout st;
     reconnectAttempts := reconnectAttempts st; sent := sent st;
     calls := calls st; console := console st ++ [e] |}.

(** [sendMessage(message, onResponse)]; [now] is what [Date.now()] returns.
    The result is the message id, [None] for [null]. *)
Definition sendMessage (now : Z) (message : Payload)
    (onResponse : option Handler) (st : State) : option Z * State :=
  match ws st with
  | Some OPEN =>
      let messageId := now in
      let st :=
        match onResponse with
        | Some h =>
            log (log_registered messageId)
              (set_handlers (<[messageId := h]> (messageHandlers st)) st)
        | None => st
        end in
      let st :=
        {| ws := ws st; isConnected := isConnected st;
           messageHandlers := messageHandlers st;
           reconnectTimeout := reconnectTimeout st;
           reconnectAttempts := reconnectAttempts st;
           sent := sent st ++ [(messageId, message)];
           calls := calls st; console := console st |} in
      (Some messageId, log (log_sent messageId) st)
  | _ => (None, log log_not_connected st)
  end.

(** [connect()]: a new socket replaces [wsRef.current] (the proxy URL is
    taken to be set). *)
Definition connect (st : State) : State :=
  {| ws := Some CONNECTING; isConnected := isConnected st;
     messageHandlers := messageHandlers st;
     reconnectTimeout := reconnectTimeout st;
     reconnectAttempts := reconnectAttempts st; sent := sent st;
     calls := calls st; console := console st |}.

(** [ws.onopen]. *)
Definition onopen (st : State) : State :=
  {| ws := Some OPEN; isConnected := true;
     messageHandlers := messageHandlers st;
     reconnectTimeout := reconnectTimeout st;
     reconnectAttempts := 0; sent := sent st;
     calls := calls st; console := console st |}.

(** JavaScript truthiness of [data.id]. *)
Definition truthy (id : option Z) : option Z :=
  match id with
  | Some n => if Z.eqb n 0 then None else Some n
  | None => None
  end.

Definition terminal (status : string) : bool :=
  String.eqb status "complete" || String.eqb status "error".

(** [ws.onmessage], from the parsed [data] on. *)
Definition onmessage (data : Data) (st : State) : State :=
  match truthy (data_id data) with
  | Some id =>
      match messageHandlers st !! id with
      | Some handler =>
          let st := log (log_found id) st in
          let st :=
            {| ws := ws st; isConnected := isConnected st;
               messageHandlers := messageHandlers st;
               reconnectTimeout := reconnectTimeout st;
               reconnectAttempts := reconnectAttempts st; sent := sent st;
               calls := calls st ++ [(handler, data)];
               console := console st |} in
          if terminal (data_status data)
          then set_handlers (delete id (messageHandlers st))
                 (log (log_cleanup id) st)
          else st
      | None => log (warn_no_handler (data_id data)) st
      end
  | None => log (warn_no_handler (data_id data)) st
  end.

(** [ws.onerror]. *)
Definition onerror (st : State) : State :=
  {| ws := ws st; isConnected := false;
     messageHandlers := messageHandlers st;
     reconnectTimeout := reconnectTimeout st;
     reconnectAttempts := reconnectAttempts st; sent := sent st;
     calls := calls st; console := console st |}.

(** [ws.onclose]. *)
Definition onclose (st : State) : State :=
  let st := log log_disconnected st in
  let st :=
    {| ws := Some CLOSED; isConnected := false;
       messageHandlers := messageHandlers st;
       reconnectTimeout := reconnectTimeout st;
       reconnectAttempts := reconnectAttempts st; sent := sent st;
       calls := calls st; console := console st |} in
  if (reconnectAttempts st <? maxReconnectAttempts)%nat then
    let delay := (baseReconnectDelay * 2 ^ Z.of_nat (reconnectAttempts st))%Z in
    let st := log (log_reconnecting delay (reconnectAttempts st + 1)) st in
    {| ws := ws st; isConnected := isConnected st;
       messageHandlers := messageHandlers st;
       reconnectTimeout := Some delay;
       reconnectAttempts := reconnectAttempts st; sent := sent st;
       calls := calls st; console := console st |}
  else log error_max_attempts st.

(** The callback given to [window.setTimeout] by [onclose]. *)
Definition ontimeout (st : State) : State :=
  connect
    {| ws := ws st; isConnected := isConnected st;
       messageHandlers := messageHandlers st;
       reconnectTimeout := reconnectTimeout st;
       reconnectAttempts := reconnectAttempts st + 1; sent := sent st;
       calls := calls st; console := console st |}.

(** What can happen to a connection between two calls of [sendMessage]. *)
Inductive Event :=
| ev_open
| ev_message (data : Data)
| ev_error
| ev_close
| ev_timeout.

Definition handle (e : Event) (st : State) : State :=
  match e with
  | ev_open => onopen st
  | ev_message data => onmessage data st
  | ev_error => onerror st
  | ev_close => onclose st
  | ev_timeout => ontimeout st
  end.

Definition run (evs : list Event) (st : State) : State :=
  fold_left (fun st e => handle e st) evs st.

(** The one event that unregisters the handler of [id]: a message with
    that id and a terminal status. *)
Definition unregisters (id : Z) (e : Event) : bool :=
  match e with
  | ev_message data =>
      match truthy (data_id data) with
      | Some id' => Z.eqb id' id && terminal (data_status data)
      | None => false
      end
  | _ => false
  end.

(** [k] rounds of a close followed by the timer of the reconnection. *)
Fixpoint failed_attempts (k : nat) : list Event :=
  match k with
  | O => []
  | S n => failed_attempts n ++ [ev_close; ev_timeout]
  end.

(** The state of a freshly mounted hook. *)
Definition initial : State :=
  {| ws := None; isConnected := false; messageHandlers := ∅;
     reconnectTimeout := None; reconnectAttempts := 0; sent := [];
     calls := []; console := [] |}.

(** The cleanup of the effect, lines 122-129, run when the component
    unmounts or [proxyURL] changes: the pending timer is cleared and
    [close()] is called on the socket, which starts closing; its [close]
    event comes later. *)
Definition cleanup (st : State) : State :=
  {| ws := match ws st with
           | Some CLOSED => Some CLOSED
           | Some _ => Some CLOSING
           | None => None
           end;
     isConnected := isConnected st;
     messageHandlers := messageHandlers st;
     reconnectTimeout := None;
     reconnectAttempts := reconnectAttempts st; sent := sent st;
     calls := calls st; console := console st |}.

End Hook.

Arguments ws {Handler Payload} _.
Arguments isConnected {Handler Payload} _.
Arguments messageHandlers {Handler Payload} _.
Arguments reconnectTimeout {Handler Payload} _.
Arguments reconnectAttempts {Handler Payload} _.
Arguments sent {Handler Payload} _.
Arguments calls {Handler Payload} _.
Arguments console {Handler Payload} _.
Arguments sendMessage {Handler Payload} _ _ _ _.
Arguments connect {Handler Payload} _.
Arguments onopen {Handler Payload} _.
Arguments onmessage {Handler Payload} _ _.
Arguments onerror {Handler Payload} _.
Arguments onclose {Handler Payload} _.
Arguments ontimeout {Handler Payload} _.
Arguments handle {Handler Payload} _ _.
Arguments run {Handler Payload} _ _.
Arguments initial {Handler Payload}.
Arguments cleanup {Handler Payload} _.

End useWebSocket.

(* ===================================================================== *)
(** ** Package [git]: the checkpoint manager                              *)
(* ===================================================================== *)

Module git.
Import gostrings.

(** *** The repository the [git] binary works on

    [GitManager] does all of its work by running [git] in the project
    directory.  The repository is the state those runs read and write: the
    commit objects, the branches, the tags, [HEAD], an unfinished merge, the
    index and the working tree.  Each command the manager runs is given the
    meaning git's manual gives it, on that state.  A tag is a name for a
    commit; remotes, the reflog, hooks and ignore rules are left out; what
    depends on the contents of files (carrying local changes across a
    switch, merging) is left to the environment [Env]. *)

(** A tree: path to file content. *)
Abbreviation Tree := (gmap string string).

Record CommitObj := {
  c_hash : string;
  c_parents : list string;
  c_tree : Tree;
  c_author : string;
  c_date : Z;                         (* seconds since the epoch *)
  c_message : string
}.

Inductive Head :=
| OnBranch (b : string)               (* HEAD is a symbolic ref to a branch *)
| Detached (h : string).

Record Repo := {
  objects : list CommitObj;
  branches : gmap string string;      (* refs/heads: name to commit id *)
  tags : gmap string string;          (* refs/tags: name to commit id *)
  HEAD : Head;
  MERGE_HEAD : option string;
  index : Tree;
  worktree : Tree
}.

(** The outcome of a three-way content merge. *)
Inductive MergeResult :=
| MergeClean (tree wt : Tree)         (* merged tree; working tree that keeps
                                         the local changes *)
| MergeConflict (idx wt : Tree)       (* conflicted index and working tree *)
| MergeRefused.                       (* local changes in the way *)

(** What the manager's environment decides: the clock, the configured
    identity, how git names an object (SHA-1), how it prints a date, how it
    carries local changes across a switch and how it merges file contents;
    and Go's [time.Parse(time.RFC3339, _)], whose error the manager drops. *)
Record Env := {
  now : Z;
  user_name : string;
  object_name : list string -> Tree -> string -> Z -> string -> string;
  format_aI : Z -> string;
  time_Parse : string -> Z;
  switch_trees : Tree -> Tree -> Tree -> Tree -> option (Tree * Tree);
  merge_trees : list CommitObj -> string -> string -> Tree -> MergeResult
}.

Definition mem (h : string) (l : list string) : bool := existsb (String.eqb h) l.

Definition lookup_object (objs : list CommitObj) (h : string) : option CommitObj :=
  find (fun c => String.eqb (c_hash c) h) objs.

Definition tree_of (objs : list CommitObj) (h : string) : Tree :=
  match lookup_object objs h with
  | Some c => c_tree c
  | None => ∅
  end.

(** The commit [HEAD] resolves to; [None] on a branch yet to be born. *)
Definition head_commit (r : Repo) : option string :=
  match HEAD r with
  | OnBranch b => branches r !! b
  | Detached h => Some h
  end.

Definition head_tree (r : Repo) : Tree :=
  match head_commit r with
  | Some h => tree_of (objects r) h
  | None => ∅
  end.

(** The hexadecimal digits of an object name. *)
Definition is_hex (c : ascii) : bool :=
  let b := byte c in
  ((48 <=? b) && (b <=? 57) || (97 <=? b) && (b <=? 102))%N.

Definition all_hex (s : string) : bool := forallb is_hex (list_ascii_of_string s).

(** An object by its full name, or by an abbreviation of four hexadecimal
    digits or more that fits one object only. *)
Definition resolve_object (objs : list CommitObj) (rev : string) : option string :=
  if all_hex rev && (4 <=? String.length rev)%nat then
    match lookup_object objs rev with
    | Some c => Some (c_hash c)
    | None =>
        match List.filter (fun c => String.prefix rev (c_hash c)) objs with
        | [c] => Some (c_hash c)
        | _ => None
        end
    end
  else None.

(** What follows the first [n] bytes of [s]. *)
Definition drop_bytes (n : nat) (s : string) : string :=
  substring n (String.length s - n) s.

(** The commit a full ref name stands for: [refs/heads/<branch>] or
    [refs/tags/<tag>]. *)
Definition lookup_ref (r : Repo) (refname : string) : option string :=
  if String.prefix "refs/heads/" refname then branches r !! drop_bytes 11 refname
  else if String.prefix "refs/tags/" refname then tags r !! drop_bytes 10 refname
  else None.

(** The first of a list of full ref names that is a ref. *)
Fixpoint first_ref (r : Repo) (refnames : list string) : option string :=
  match refnames with
  | [] => None
  | refname :: rest =>
      match lookup_ref r refname with
      | Some h => Some h
      | None => first_ref r rest
      end
  end.

(** The rules by which git completes a name to a ref, in their order: the
    name itself, [refs/<name>], [refs/tags/<name>], [refs/heads/<name>]
    (those for remotes are left out).  A tag comes before a branch of the
    same name. *)
Definition ref_rules (name : string) : list string :=
  [name; "refs/" +:+ name; "refs/tags/" +:+ name; "refs/heads/" +:+ name].

(** Revisions as the manager writes them: [HEAD], the name of a ref, an
    object name. *)
Definition resolve (r : Repo) (rev : string) : option string :=
  if String.eqb rev "HEAD" then head_commit r
  else
    match first_ref r (ref_rules rev) with
    | Some h => Some h
    | None => resolve_object (objects r) rev
    end.

(** Some name of the list is a ref. *)
Definition resolves (r : Repo) (refnames : list string) : bool :=
  match first_ref r refnames with Some _ => true | None => false end.

(** How [rev-parse --abbrev-ref] names the branch [b]: by the shortest of
    [<b>], [heads/<b>] and [refs/heads/<b>] that no other rule completes to
    a ref. *)
Definition abbrev_ref (r : Repo) (b : string) : string :=
  if negb (resolves r [b; "refs/" +:+ b; "refs/tags/" +:+ b]) then b
  else
    let short := "heads/" +:+ b in
    if negb (resolves r [short; "refs/tags/" +:+ short; "refs/heads/" +:+ short])
    then short
    else "refs/heads/" +:+ b.

(** The commits reachable from [todo] through parents, latest found first.
    [fuel] bounds the number of names looked at. *)
Fixpoint reach (fuel : nat) (objs : list CommitObj) (todo : list string)
    (seen : list CommitObj) : list CommitObj :=
  match fuel with
  | O => seen
  | S f =>
      match todo with
      | [] => seen
      | h :: todo' =>
          if mem h (map c_hash seen) then reach f objs todo' seen
          else
            match lookup_object objs h with
            | None => reach f objs todo' seen
            | Some c => reach f objs (c_parents c ++ todo') (c :: seen)
            end
      end
  end.

Definition reach_fuel (objs : list CommitObj) (todo : list string) : nat :=
  S (List.length todo + list_sum (map (fun c => List.length (c_parents c)) objs)).

Definition reachable (objs : list CommitObj) (tips : list string) : list CommitObj :=
  rev (reach (reach_fuel objs tips) objs tips []).

(** [a] is [b] or one of its ancestors. *)
Definition is_ancestor (objs : list CommitObj) (a b : string) : bool :=
  String.eqb a b || mem a (map c_hash (reachable objs [b])).

(** The tips [--all] stands for: [HEAD] and every ref. *)
Definition all_tips (r : Repo) : list string :=
  match head_commit r with
  | Some h => [h]
  | None => []
  end ++ map snd (map_to_list (branches r)) ++ map snd (map_to_list (tags r)).

(** The latest of a list of commits by date, the first such on a tie (how
    git orders commits of the same date is not part of the model). *)
Fixpoint latest (l : list CommitObj) : option CommitObj :=
  match l with
  | [] => None
  | c :: rest =>
      match latest rest with
      | Some d => if (c_date c <? c_date d)%Z then Some d else Some c
      | None => Some c
      end
  end.

Definition has_child_in (l : list CommitObj) (c : CommitObj) : bool :=
  existsb (fun d => mem (c_hash c) (c_parents d)) l.

Definition remove_commit (c : CommitObj) (l : list CommitObj) : list CommitObj :=
  List.filter (fun d => negb (String.eqb (c_hash d) (c_hash c))) l.

(** [--date-order]: no commit before all of its children are shown,
    otherwise by commit date, latest first. *)
Fixpoint date_order (fuel : nat) (remaining : list CommitObj) : list CommitObj :=
  match fuel with
  | O => []
  | S f =>
      match latest (List.filter (fun c => negb (has_child_in remaining c)) remaining) with
      | None => []
      | Some c => c :: date_order f (remove_commit c remaining)
      end
  end.

Definition PIPE : ascii := "|"%char.

(** [%h]: the abbreviated name (seven characters; git lengthens it when it
    would fit two objects, which is left out). *)
Definition short_hash (h : string) : string := substring 0 7 h.

Definition blank (s : string) : bool :=
  forallb asciiSpace (list_ascii_of_string s).

(** [%s]: the first paragraph of the message on one line. *)
Fixpoint first_paragraph (lines : list string) (started : bool) : list string :=
  match lines with
  | [] => []
  | l :: rest =>
      if blank l then (if started then [] else first_paragraph rest false)
      else l :: first_paragraph rest true
  end.

Definition subject (message : string) : string :=
  Join (first_paragraph (Split message LF) false) " ".

(** The format [%H|%h|%an|%aI|%s] filled in. *)
Definition log_line (H h an aI s : string) : string :=
  H +:+ "|" +:+ h +:+ "|" +:+ an +:+ "|" +:+ aI +:+ "|" +:+ s.

(** [--pretty=format:%H|%h|%an|%aI|%s] for one commit. *)
Definition pretty (E : Env) (c : CommitObj) : string :=
  log_line (c_hash c) (short_hash (c_hash c)) (c_author c)
    (format_aI E (c_date c)) (subject (c_message c)).

(** The commands the manager runs. *)
Inductive Cmd :=
| rev_parse_abbrev_ref_HEAD           (* rev-parse --abbrev-ref HEAD *)
| rev_parse_verify (rev : string)     (* rev-parse --verify <rev> *)
| rev_parse_git_dir                   (* rev-parse --git-dir *)
| branch (name : string)              (* branch <name> *)
| checkout (rev : string)             (* checkout <rev> *)
| merge_ff_only (rev : string)        (* merge --ff-only <rev> *)
| merge (rev : string)                (* merge <rev> *)
| add_dot                             (* add . *)
| commit_m (message : string)         (* commit -m <message> *)
| reset_hard (rev : string)           (* reset --hard <rev> *)
| log_all_date_order (limit : Z).     (* log --all --date-order -<limit>
                                         --pretty=format:%H|%h|%an|%aI|%s *)

(** One run of [git]: exit status, standard output, repository afterwards. *)
Record Result := {
  exit_status : Z;
  stdout : string;
  after : Repo
}.

Definition ok (out : string) (r : Repo) : Result :=
  {| exit_status := 0; stdout := out; after := r |}.

Definition failed (code : Z) (r : Repo) : Result :=
  {| exit_status := code; stdout := ""; after := r |}.

Definition NL : string := String LF "".

(** The branch [HEAD] names, or [HEAD] itself when detached, moved to [h]. *)
Definition move_head (h : string) (r : Repo) : Repo :=
  match HEAD r with
  | OnBranch b =>
      {| objects := objects r; branches := <[b := h]> (branches r);
         tags := tags r; HEAD := HEAD r; MERGE_HEAD := MERGE_HEAD r;
         index := index r; worktree := worktree r |}
  | Detached _ =>
      {| objects := objects r; branches := branches r; tags := tags r;
         HEAD := Detached h;
         MERGE_HEAD := MERGE_HEAD r; index := index r; worktree := worktree r |}
  end.

Definition set_trees (idx wt : Tree) (r : Repo) : Repo :=
  {| objects := objects r; branches := branches r; tags := tags r;
     HEAD := HEAD r; MERGE_HEAD := MERGE_HEAD r; index := idx; worktree := wt |}.

Definition set_merge_head (m : option string) (r : Repo) : Repo :=
  {| objects := objects r; branches := branches r; tags := tags r;
     HEAD := HEAD r; MERGE_HEAD := m; index := index r; worktree := worktree r |}.

Definition set_HEAD (h : Head) (r : Repo) : Repo :=
  {| objects := objects r; branches := branches r; tags := tags r; HEAD := h;
     MERGE_HEAD := MERGE_HEAD r; index := index r; worktree := worktree r |}.

Definition add_object (c : CommitObj) (r : Repo) : Repo :=
  {| objects := c :: objects r; branches := branches r; tags := tags r;
     HEAD := HEAD r; MERGE_HEAD := MERGE_HEAD r; index := index r;
     worktree := worktree r |}.

(** A new commit object with the given parents, tree, author and message,
    dated [now]. *)
Definition new_commit (E : Env) (parents : list string) (t : Tree)
    (author message : string) : CommitObj :=
  {| c_hash := object_name E parents t author (now E) message;
     c_parents := parents; c_tree := t; c_author := author;
     c_date := now E; c_message := message |}.

(** The value of [GIT_AUTHOR_NAME] in the extra environment, else the
    configured identity. *)
Fixpoint author_name (E : Env) (envVars : list string) : string :=
  match envVars with
  | [] => user_name E
  | v :: rest =>
      if String.prefix "GIT_AUTHOR_NAME=" v
      then substring 16 (String.length v - 16) v
      else author_name E rest
  end.

(** Carrying index and working tree from tree [old] to tree [new]: nothing
    moves when the two are the same tree, an index and working tree without
    local changes become [new], and the environment decides what happens to
    local changes. *)
Definition switch (E : Env) (old new : Tree) (r : Repo) : option (Tree * Tree) :=
  if bool_decide (old = new) then Some (index r, worktree r)
  else if bool_decide (index r = old) && bool_decide (worktree r = old)
  then Some (new, new)
  else switch_trees E old new (index r) (worktree r).

(** [git merge <rev>], and with [ff_only] [git merge --ff-only <rev>]:
    nothing to do when [rev] is already merged, a fast-forward when [HEAD]
    is an ancestor of [rev], otherwise a merge commit, for which the index
    has to match [HEAD]. *)
Definition git_merge (E : Env) (ff_only : bool) (rev : string) (r : Repo) : Result :=
  match MERGE_HEAD r, resolve r rev, head_commit r with
  | None, Some t, Some h =>
      if is_ancestor (objects r) t h then ok "Already up to date." r
      else if is_ancestor (objects r) h t then
        match switch E (tree_of (objects r) h) (tree_of (objects r) t) r with
        | Some (idx, wt) => ok "Fast-forward" (set_trees idx wt (move_head t r))
        | None => failed 1 r
        end
      else if ff_only then failed 128 r
      else if negb (bool_decide (index r = tree_of (objects r) h)) then failed 128 r
      else
        match merge_trees E (objects r) h t (worktree r) with
        | MergeClean tree wt =>
            let wt :=
              if bool_decide (worktree r = tree_of (objects r) h) then tree else wt in
            let c := new_commit E [h; t] tree (user_name E)
                       ("Merge branch '" +:+ rev +:+ "'") in
            ok "Merge made." (set_trees tree wt (move_head (c_hash c) (add_object c r)))
        | MergeConflict idx wt =>
            failed 1 (set_merge_head (Some t) (set_trees idx wt r))
        | MergeRefused => failed 1 r
        end
  | _, _, _ => failed 128 r
  end.

(** [git commit -m <message>] with [envVars] added to the environment: the
    commit is refused, with status 1, for a message that is blank and when
    the index is the tree of [HEAD]; a commit made while a merge is under
    way concludes the merge. *)
Definition git_commit (E : Env) (envVars : list string) (message : string)
    (r : Repo) : Result :=
  if blank message then failed 1 r
  else
    match MERGE_HEAD r, head_commit r with
    | Some m, Some h =>
        let c := new_commit E [h; m] (index r) (author_name E envVars) message in
        ok "" (set_merge_head None (move_head (c_hash c) (add_object c r)))
    | Some _, None => failed 128 r
    | None, Some h =>
        if bool_decide (index r = tree_of (objects r) h) then failed 1 r
        else
          let c := new_commit E [h] (index r) (author_name E envVars) message in
          ok "" (move_head (c_hash c) (add_object c r))
    | None, None =>
        if bool_decide (index r = ∅) then failed 1 r
        else
          let c := new_commit E [] (index r) (author_name E envVars) message in
          ok "" (move_head (c_hash c) (add_object c r))
    end.

(** [git reset --hard <rev>]: the current branch, the index and the tracked
    files of the working tree are set to the commit; untracked files stay. *)
Definition git_reset_hard (rev : string) (r : Repo) : Result :=
  match resolve r rev with
  | Some h =>
      match lookup_object (objects r) h with
      | Some c =>
          let untracked := filter (fun kv => index r !! kv.1 = None) (worktree r) in
          ok "" (set_merge_head None
                   (set_trees (c_tree c) (c_tree c ∪ untracked) (move_head h r)))
      | None => failed 128 r
      end
  | None => failed 128 r
  end.

(** [git checkout <rev>]: the name of a branch attaches [HEAD] to the
    branch, also when a tag has that name; any other revision, a tag or an
    object name, detaches [HEAD] at its commit; refused while a merge is
    under way. *)
Definition git_checkout (E : Env) (rev : string) (r : Repo) : Result :=
  match MERGE_HEAD r with
  | Some _ => failed 1 r
  | None =>
      let target :=
        match branches r !! rev with
        | Some h => Some (OnBranch rev, h)
        | None =>
            match resolve r rev with
            | Some h => Some (Detached h, h)
            | None => None
            end
        end in
      match target with
      | Some (hd, h) =>
          match switch E (head_tree r) (tree_of (objects r) h) r with
          | Some (idx, wt) => ok "" (set_trees idx wt (set_HEAD hd r))
          | None => failed 1 r
          end
      | None => failed 1 r
      end
  end.

(** [git branch <name>]. *)
Definition git_branch (name : string) (r : Repo) : Result :=
  match branches r !! name, head_commit r with
  | None, Some h =>
      ok "" {| objects := objects r; branches := <[name := h]> (branches r);
               tags := tags r; HEAD := HEAD r; MERGE_HEAD := MERGE_HEAD r;
               index := index r; worktree := worktree r |}
  | _, _ => failed 128 r
  end.

(** [git log --all --date-order -<limit> --pretty=format:...]. *)
Definition git_log (E : Env) (limit : Z) (r : Repo) : Result :=
  if (limit <? 0)%Z then failed 128 r
  else
    let commits := reachable (objects r) (all_tips r) in
    let sorted := date_order (List.length commits) commits in
    ok (Join (map (pretty E) (firstn (Z.to_nat limit) sorted)) NL) r.

(** [git <cmd>] run in the project directory with [envVars] added. *)
Definition git (E : Env) (envVars : list string) (c : Cmd) (r : Repo) : Result :=
  match c with
  | rev_parse_abbrev_ref_HEAD =>
      match HEAD r with
      | OnBranch b =>
          match branches r !! b with
          | Some _ => ok (abbrev_ref r b +:+ NL) r
          | None => failed 128 r
          end
      | Detached _ => ok ("HEAD" +:+ NL) r
      end
  | rev_parse_verify rev =>
      match resolve r rev with
      | Some h => ok (h +:+ NL) r
      | None => failed 128 r
      end
  | rev_parse_git_dir => ok (".git" +:+ NL) r
  | branch name => git_branch name r
  | checkout rev => git_checkout E rev r
  | merge_ff_only rev => git_merge E true rev r
  | merge rev => git_merge E false rev r
  | add_dot => ok "" (set_trees (worktree r) (worktree r) r)
  | commit_m message => git_commit E envVars message r
  | reset_hard rev => git_reset_hard rev r
  | log_all_date_order limit => git_log E limit r
  end.

(** *** The Go code

    Go's [error] is [None] for [nil], otherwise the text of [err.Error()].
    The methods of [GitManager] run in the state monad over the
    repository. *)

Definition error := option string.

Definition M (A : Type) : Type := Repo -> A * Repo.
Definition ret {A} (a : A) : M A := fun r => (a, r).
Definition bind {A B} (m : M A) (k : A -> M B) : M B :=
  fun r => let '(a, r') := m r in k a r'.

Notation "'let*' x := m 'in' k" := (bind m (fun x => k))
  (at level 10, x name, m at level 100, k at level 200).
Notation "'let*' ' p := m 'in' k" := (bind m (fun x => let 'p := x in k))
  (at level 10, p pattern, m at level 100, k at level 200).

(** The error of [cmd.Run()] for a command that exited with [code]. *)
Definition ExitError (code : Z) : error :=
  if (code =? 0)%Z then None else Some ("exit status " +:+ Itoa code).

(** [fmt.Errorf(format + ": %w", err)]. *)
Definition Errorf (what : string) (err : error) : error :=
  match err with
  | Some e => Some (what +:+ ": " +:+ e)
  | None => Some (what +:+ ": %!w(<nil>)")
  end.

Definition is_err (err : error) : bool :=
  match err with Some _ => true | None => false end.

Definition runGitCommand (E : Env) (c : Cmd) : M error :=
  fun r => let res := git E [] c r in (ExitError (exit_status res), after res).

Definition runGitCommandWithOutput (E : Env) (c : Cmd) : M (string * error) :=
  fun r =>
    let res := git E [] c r in
    match ExitError (exit_status res) with
    | Some e => (("", Some e), after res)
    | None => ((stdout res, None), after res)
    end.

Definition runGitCommandWithEnv (E : Env) (envVars : list string) (c : Cmd)
    : M error :=
  fun r => let res := git E envVars c r in (ExitError (exit_status res), after res).

(** [ensureMainBranch], lines 170-181: the branch left behind is merged
    into [main], fast-forward first. *)
Definition mergeIntoMain (E : Env) (currentBranch : string) : M error :=
  if negb (String.eqb currentBranch "HEAD") then
    let* err := runGitCommand E (merge_ff_only currentBranch) in
    if is_err err then
      let* err := runGitCommand E (merge currentBranch) in
      if is_err err
      then ret (Errorf ("failed to merge " +:+ currentBranch +:+ " into main") err)
      else ret None
    else ret None
  else ret None.

(** [ensureMainBranch], lines 156-181: what is done when the current
    branch is not [main]. *)
Definition switchToMain (E : Env) (currentBranch : string) : M error :=
  let* err := runGitCommand E (rev_parse_verify "main") in
  let* err := (if is_err err then runGitCommand E (branch "main") else ret None) in
  if is_err err then ret (Errorf "failed to create main branch" err)
  else
    let* err := runGitCommand E (checkout "main") in
    if is_err err then ret (Errorf "failed to checkout main branch" err)
    else mergeIntoMain E currentBranch.

(** [ensureMainBranch]. *)
Definition ensureMainBranch (E : Env) : M error :=
  let* '(currentBranch, err) := runGitCommandWithOutput E rev_parse_abbrev_ref_HEAD in
  if is_err err then ret (Errorf "failed to get current branch" err)
  else
    let currentBranch := TrimSpace currentBranch in
    if String.eqb currentBranch "main" then ret None
    else switchToMain E currentBranch.

(** [CreateCommit]. *)
Definition CreateCommit (E : Env) (message : string) : M error :=
  let* err := ensureMainBranch E in
  if is_err err then ret (Errorf "failed to ensure main branch" err)
  else
    let* err := runGitCommand E add_dot in
    if is_err err then ret (Errorf "failed to stage changes" err)
    else
      let* err := runGitCommandWithEnv E
               ["GIT_AUTHOR_NAME=Layrr"; "GIT_AUTHOR_EMAIL=hitman@layrr.dev";
                "GIT_COMMITTER_NAME=Layrr"; "GIT_COMMITTER_EMAIL=hitman@layrr.dev"]
               (commit_m message) in
      if is_err err then ret (Errorf "failed to create commit" err)
      else ret None.

(** The struct [Commit]. *)
Record Commit := {
  Hash : string;
  Message : string;
  Author : string;
  Date : Z;
  ShortHash : string
}.

(** Lines 76-95: the loop over the lines of the output. *)
Fixpoint parseLines (E : Env) (lines : list string) (commits : list Commit)
    : list Commit :=
  match lines with
  | [] => commits
  | line :: rest =>
      if String.eqb line "" then parseLines E rest commits
      else
        match SplitN line PIPE 5 with
        | [p0; p1; p2; p3; p4] =>
            let date := time_Parse E p3 in
            parseLines E rest
              (commits ++ [{| Hash := p0; ShortHash := p1; Author := p2;
                              Date := date; Message := p4 |}])
        | _ => parseLines E rest commits
        end
  end.

(** [GetCommitHistory]. *)
Definition GetCommitHistory (E : Env) (limit : Z) : M (list Commit * error) :=
  let* '(output, err) := runGitCommandWithOutput E (log_all_date_order limit) in
  if is_err err then ret ([], Errorf "failed to get commit history" err)
  else
    let lines := Split (TrimSpace output) LF in
    ret (parseLines E lines [], None).

(** [CheckoutCommit]. *)
Definition CheckoutCommit (E : Env) (commitHash : string) : M error :=
  let* err := ensureMainBranch E in
  if is_err err then ret (Errorf "failed to ensure main branch" err)
  else runGitCommand E (reset_hard commitHash).

(** *** Vocabulary of the properties *)







(** [IsGitRepo]. *)
Definition IsGitRepo (E : Env) : M bool :=
  let* err := runGitCommand E rev_parse_git_dir in
  ret (negb (is_err err)).

(** Between [r] and [r'] the branch [b] was left where it was, or absent,
    and no commit was removed. *)
Definition keeps (b : string) (r r' : Repo) : Prop :=
  branches r' !! b = branches r !! b
  /\ exists new, objects r' = new ++ objects r.




(** The entry of the commit [c] in a history, with [message] for its
    message: its name, short name, author and date as the log prints and
    [GetCommitHistory] reads them. *)
Definition entry (E : Env) (c : CommitObj) (message : string) : Commit :=
  {| Hash := c_hash c; ShortHash := short_hash (c_hash c); Author := c_author c;
     Date := time_Parse E (format_aI E (c_date c)); Message := message |}.



(** The number of bytes [c] in [s]. *)
Definition count_byte (c : ascii) (s : string) : nat :=
  List.length (List.filter (Ascii.eqb c) (list_ascii_of_string s)).

End git.

(* ===================================================================== *)
(** ** Package [git], the earlier revision                                *)
(* ===================================================================== *)

(** The sources keep an earlier revision of the package, printed after
    [bridge.go]: [CreateCommit] without [ensureMainBranch], [CheckoutCommit]
    by [git checkout], and [GetCurrentBranch].  Its three run helpers are
    those of [git], line for line. *)
Module git_v1.
Import gostrings git.

(** [CreateCommit], lines 176-196. *)
Definition CreateCommit (E : Env) (message : string) : M error :=
  let* err := runGitCommand E add_dot in
  if is_err err then ret (Errorf "failed to stage changes" err)
  else
    let* err := runGitCommandWithEnv E
             ["GIT_AUTHOR_NAME=Layrr"; "GIT_AUTHOR_EMAIL=hitman@layrr.dev";
              "GIT_COMMITTER_NAME=Layrr"; "GIT_COMMITTER_EMAIL=hitman@layrr.dev"]
             (commit_m message) in
    if is_err err then ret (Errorf "failed to create commit" err)
    else ret None.

(** [CheckoutCommit], lines 241-243. *)
Definition CheckoutCommit (E : Env) (commitHash : string) : M error :=
  runGitCommand E (checkout commitHash).

(** [GetCurrentBranch], lines 246-252. *)
Definition GetCurrentBranch (E : Env) : M (string * error) :=
  let* '(output, err) := runGitCommandWithOutput E rev_parse_abbrev_ref_HEAD in
  if is_err err then ret ("", err)
  else ret (TrimSpace output, None).

End git_v1.

(* ===================================================================== *)
(** ** [GitHistoryModal]: the list of checkpoints                         *)
(* ===================================================================== *)

Module GitHistoryModal.

(** An integer in a template literal. *)
Definition toString (n : Z) : string := NilZero.string_of_int (Z.to_int n).

Section formatDate.

(** [date.toLocaleDateString('en-US', ...)] is left to the browser; its
    argument here is the time value of the date. *)
Variable toLocaleDateString : Z -> string.

(** [formatDate(dateStr)].  [now] is the time value of [new Date()] and
    [date] that of [new Date(dateStr)], in milliseconds; [date] is [None]
    when the text is no date: the time value is then [NaN], every
    comparison is false and the last [return] gives [Invalid Date].
    [Math.floor] of a quotient is the division of [Z]. *)
Definition formatDate (now : Z) (date : option Z) : string :=
  match date with
  | None => "Invalid Date"
  | Some date =>
      let diffMs := (now - date)%Z in
      let diffMins := (diffMs / 60000)%Z in
      let diffHours := (diffMs / 3600000)%Z in
      let diffDays := (diffMs / 86400000)%Z in
      if (diffMins <? 1)%Z then "just now"
      else if (diffMins <? 60)%Z then
        toString diffMins +:+ " min"
          +:+ (if (1 <? diffMins)%Z then "s" else "") +:+ " ago"
      else if (diffHours <? 24)%Z then
        toString diffHours +:+ " hour"
          +:+ (if (1 <? diffHours)%Z then "s" else "") +:+ " ago"
      else if (diffDays <? 7)%Z then
        toString diffDays +:+ " day"
          +:+ (if (1 <? diffDays)%Z then "s" else "") +:+ " ago"
      else toLocaleDateString date
  end.

End formatDate.

(** The calls of the props. *)
Inductive Call := call_onCheckout | call_onClose.

(** The state [handleCheckout] works on, and what it calls: the calls of
    [SwitchToGitCommit] that await their result, and the calls of the props
    made so far. *)
Record State := {
  isSwitching : bool;
  switchingHash : string;
  error : string;
  awaiting : list string;
  called : list Call
}.

Definition initial : State :=
  {| isSwitching := false; switchingHash := ""; error := "";
     awaiting := []; called := [] |}.

(** [handleCheckout(commitHash, commitShortHash)] up to its [await]. *)
Definition handleCheckout (commitHash commitShortHash : string) (st : State)
    : State :=
  {| isSwitching := true; switchingHash := commitShortHash; error := "";
     awaiting := awaiting st ++ [commitHash]; called := called st |}.

(** [handleCheckout] from its [await] on, for the call that has waited
    longest: [outcome] is [None] when [SwitchToGitCommit] returned, the
    text of what it threw otherwise.  Without a call that waits, nothing
    resumes. *)
Definition resume (outcome : option string) (st : State) : State :=
  match awaiting st with
  | [] => st
  | _ :: rest =>
      match outcome with
      | None =>
          {| isSwitching := false; switchingHash := ""; error := error st;
             awaiting := rest;
             called := called st ++ [call_onCheckout; call_onClose] |}
      | Some err =>
          {| isSwitching := false; switchingHash := "";
             error := "Failed to switch commit: " +:+ err;
             awaiting := rest; called := called st |}
      end
  end.

Inductive Event :=
| click (commitHash commitShortHash : string)   (* on a row of the list *)
| settled (outcome : option string).

(** The [onClick] of a row is [!isSwitching && handleCheckout(...)]. *)
Definition handle (e : Event) (st : State) : State :=
  match e with
  | click commitHash commitShortHash =>
      if negb (isSwitching st) then handleCheckout commitHash commitShortHash st
      else st
  | settled outcome => resume outcome st
  end.

Definition run (evs : list Event) (st : State) : State :=
  fold_left (fun st e => handle e st) evs st.

End GitHistoryModal.

(* ===================================================================== *)
(** ** [GitCheckpointModal.tsx]: the form of a new checkpoint             *)
(* ===================================================================== *)

Module GitCheckpointModal.

(** A JavaScript string: its UTF-16 code units. *)
Definition jsstring := list N.

(** The code units [String.prototype.trim] removes: WhiteSpace and
    LineTerminator of ECMAScript. *)
Definition isWhiteSpace (u : N) : bool :=
  ((9 <=? u) && (u <=? 13) || (u =? 32) || (u =? 160) || (u =? 5760)
   || (8192 <=? u) && (u <=? 8202) || (u =? 8232) || (u =? 8233)
   || (u =? 8239) || (u =? 8287) || (u =? 12288) || (u =? 65279))%N.

Fixpoint trimStart (s : jsstring) : jsstring :=
  match s with
  | u :: rest => if isWhiteSpace u then trimStart rest else s
  | [] => []
  end.

(** [s.trim()]. *)
Definition trim (s : jsstring) : jsstring :=
  rev (trimStart (rev (trimStart s))).

(** [!s] for a string. *)
Definition not (s : jsstring) : bool :=
  match s with [] => true | _ => false end.

Inductive Call := call_onSuccess | call_onClose.

(** The state of the component, and what it calls: the calls of
    [CreateGitCheckpoint] that await their result, and the calls of the
    props made so far. *)
Record State := {
  message : jsstring;
  isCreating : bool;
  error : string;
  awaiting : list jsstring;
  called : list Call
}.

Definition initial : State :=
  {| message := []; isCreating := false; error := "";
     awaiting := []; called := [] |}.

(** [handleCreate] up to its [await]. *)
Definition handleCreate (st : State) : State :=
  if not (trim (message st)) then
    {| message := message st; isCreating := isCreating st;
       error := "Please enter a commit message";
       awaiting := awaiting st; called := called st |}
  else
    {| message := message st; isCreating := true; error := "";
       awaiting := awaiting st ++ [message st]; called := called st |}.

(** [handleCreate] from its [await] on, for the call that has waited
    longest; [outcome] is [None] when [CreateGitCheckpoint] returned, the
    text of what it threw otherwise. *)
Definition resume (outcome : option string) (st : State) : State :=
  match awaiting st with
  | [] => st
  | _ :: rest =>
      match outcome with
      | None =>
          {| message := []; isCreating := false; error := error st;
             awaiting := rest;
             called := called st ++ [call_onSuccess; call_onClose] |}
      | Some err =>
          {| message := message st; isCreating := false;
             error := "Failed to create checkpoint: " +:+ err;
             awaiting := rest; called := called st |}
      end
  end.

Definition onClose (st : State) : State :=
  {| message := message st; isCreating := isCreating st; error := error st;
     awaiting := awaiting st; called := called st ++ [call_onClose] |}.

(** [handleKeyDown(e)]. *)
Definition handleKeyDown (key : string) (metaKey ctrlKey : bool) (st : State)
    : State :=
  if String.eqb key "Enter" && (metaKey || ctrlKey) then handleCreate st
  else if String.eqb key "Escape" then onClose st
  else st.

Inductive Event :=
| change (value : jsstring)                       (* typing in the text area *)
| keyDown (key : string) (metaKey ctrlKey : bool) (* a key in the text area *)
| clickCreate                                     (* the button of the footer *)
| clickCancel
| settled (outcome : option string).

(** The button [Create Checkpoint] is
    [disabled={isCreating || !message.trim()}]; a disabled button gives no
    click. *)
Definition handle (e : Event) (st : State) : State :=
  match e with
  | change value =>
      {| message := value; isCreating := isCreating st; error := error st;
         awaiting := awaiting st; called := called st |}
  | keyDown key metaKey ctrlKey => handleKeyDown key metaKey ctrlKey st
  | clickCreate =>
      if isCreating st || not (trim (message st)) then st else handleCreate st
  | clickCancel => onClose st
  | settled outcome => resume outcome st
  end.

Definition run (evs : list Event) (st : State) : State :=
  fold_left (fun st e => handle e st) evs st.

End GitCheckpointModal.

(* ===================================================================== *)
(** ** Concrete inputs                                                     *)
(* ===================================================================== *)

Module examples.
Import gostrings.

(** *** Selections *)

Definition button : bridge.ElementInfo :=
  {| bridge.TagName := "button"; bridge.ID := ""; bridge.Classes := "buy";
     bridge.Selector := "button.buy"; bridge.InnerText := "Buy";
     bridge.OuterHTML := "<button class=buy>Buy</button>" |}.

Definition selection (count : Z) (els : list bridge.ElementInfo)
    (instruction : string) : bridge.Message :=
  {| bridge.MsgID := 1;
     bridge.Area := {| bridge.X := 0; bridge.Y := 0; bridge.Width := 300;
                       bridge.Height := 120; bridge.ElementCount := count;
                       bridge.Elements := els |};
     bridge.Instruction := instruction; bridge.Screenshot := "" |}.

Definition card : bridge.ElementInfo :=
  {| bridge.TagName := "div"; bridge.ID := "card-1"; bridge.Classes := "card";
     bridge.Selector := "div#card-1.card";
     bridge.InnerText := "Plan" +:+ String LF "Buy";
     bridge.OuterHTML := "<div id=card-1 class=card>Plan <button class=buy>Buy</button></div>" |}.

(** A card and the button in it. *)
Definition msg_card_and_button : bridge.Message :=
  selection 2 [card; button] "make the button purple".

(** Twenty-five buttons. *)
Definition msg25 : bridge.Message :=
  selection 25 (repeat button 25) "make the buttons purple".

(** Twenty-five buttons, announced as twenty. *)
Definition msg25_as_20 : bridge.Message :=
  selection 20 (repeat button 25) "make the buttons purple".

(** Two buttons, announced as five. *)
Definition msg2_as_5 : bridge.Message :=
  selection 5 (repeat button 2) "make the buttons purple".

(** An instruction typed on two lines, nothing selected. *)
Definition msg_two_lines : bridge.Message :=
  selection 0 [] ("make the button purple" +:+ String LF "and round").

(** The two bytes of U+00E9 in UTF-8. *)
Definition e_acute : string :=
  String (ascii_of_nat 195) (String (ascii_of_nat 169) "").

(** Fifty characters, a hundred bytes. *)
Definition fifty_accents : string := Repeat e_acute 50.

(** The three bytes of U+20AC, the euro sign, in UTF-8. *)
Definition euro : string :=
  String (ascii_of_nat 226) (String (ascii_of_nat 130) (String (ascii_of_nat 172) "")).

(** Seventeen characters, fifty-one bytes. *)
Definition seventeen_euros : string := Repeat euro 17.

Definition fifty_letters : string := Repeat "a" 50.
Definition fifty_one_letters : string := Repeat "a" 51.
Definition hundred_and_one_letters : string := Repeat "a" 101.

(** *** Connections: callbacks named by numbers, payloads by strings *)

Definition request_id : Z := 1700000000000.

(** A mounted hook whose socket has opened. *)
Definition connected : useWebSocket.State nat string :=
  useWebSocket.onopen (useWebSocket.connect useWebSocket.initial).

(** The same after one [sendMessage] with callback 7, at time
    [request_id]. *)
Definition one_pending : useWebSocket.State nat string :=
  snd (useWebSocket.sendMessage request_id "select" (Some 7%nat) connected).

Definition completed : useWebSocket.Data :=
  {| useWebSocket.data_id := Some request_id;
     useWebSocket.data_status := "complete" |}.

(** *** Repositories *)

(** An environment: the clock, an identity, a function naming the commit
    made in the examples, one date text, no carrying of local changes and
    no content merge. *)
Definition env : git.Env :=
  {| git.now := 1700000300;
     git.user_name := "dev";
     git.object_name := fun _ _ _ _ _ => "cccccccccccccccccccccccccccccccccccccc03";
     git.format_aI := fun _ => "2023-11-14T22:18:20+00:00";
     git.time_Parse := fun _ => 0%Z;
     git.switch_trees := fun _ _ _ _ => None;
     git.merge_trees := fun _ _ _ _ => git.MergeRefused |}.

Definition page_v1 : gmap string string := {[ "index.html" := "<h1>v1</h1>" ]}.
Definition page_v2 : gmap string string := {[ "index.html" := "<h1>v2</h1>" ]}.
Definition page_v3 : gmap string string := {[ "index.html" := "<h1>v3</h1>" ]}.

Definition id1 : string := "aaaaaaaaaaaaaaaaaaaaaaaaaaaaaaaaaaaaaa01".
Definition id2 : string := "bbbbbbbbbbbbbbbbbbbbbbbbbbbbbbbbbbbbbb02".
Definition id9 : string := "dddddddddddddddddddddddddddddddddddddd09".

Definition checkpoint1 : git.CommitObj :=
  {| git.c_hash := id1; git.c_parents := []; git.c_tree := page_v1;
     git.c_author := "Layrr"; git.c_date := 1700000100;
     git.c_message := "first version" |}.

Definition checkpoint2 : git.CommitObj :=
  {| git.c_hash := id2; git.c_parents := [id1]; git.c_tree := page_v2;
     git.c_author := "Layrr"; git.c_date := 1700000200;
     git.c_message := "purple button" |}.

(** A commit made elsewhere, by a clock that is ahead. *)
Definition from_the_future : git.CommitObj :=
  {| git.c_hash := id9; git.c_parents := [id1]; git.c_tree := page_v1;
     git.c_author := "someone"; git.c_date := 1800000000;
     git.c_message := "dated ahead" |}.

Definition repository (objs : list git.CommitObj)
    (branches : gmap string string) (head : git.Head) (idx wt : gmap string string)
    : git.Repo :=
  {| git.objects := objs; git.branches := branches; git.tags := ∅;
     git.HEAD := head; git.MERGE_HEAD := None; git.index := idx;
     git.worktree := wt |}.

(** Two checkpoints on [main], nothing changed since the second. *)
Definition two_checkpoints : git.Repo :=
  repository [checkpoint2; checkpoint1] {[ "main" := id2 ]}
    (git.OnBranch "main") page_v2 page_v2.



(** The same history on a branch [dev], no branch [main] yet. *)
Definition on_dev : git.Repo :=
  repository [checkpoint2; checkpoint1] {[ "dev" := id2 ]}
    (git.OnBranch "dev") page_v2 page_v2.

(** [main] with an edited page, and a branch [other] whose commit is dated
    ahead of the clock. *)
Definition with_future_branch : git.Repo :=
  repository [from_the_future; checkpoint2; checkpoint1]
    {[ "main" := id2; "other" := id9 ]}
    (git.OnBranch "main") page_v2 page_v3.

(** The branch name [main] followed by U+00A0, a no-break space. *)
Definition main_nbsp : string :=
  "main" +:+ String (ascii_of_nat 194) (String (ascii_of_nat 160) "").

(** A repository whose only branch is [main_nbsp], with an edited page. *)
Definition on_main_nbsp : git.Repo :=
  repository [checkpoint2; checkpoint1] {[ main_nbsp := id2 ]}
    (git.OnBranch main_nbsp) page_v2 page_v3.

(** The card and the button again, sent from another place of the page,
    with a screenshot and other tags, ids and classes. *)
Definition msg_card_and_button_elsewhere : bridge.Message :=
  {| bridge.MsgID := 2;
     bridge.Area :=
       {| bridge.X := 40; bridge.Y := 560; bridge.Width := 300;
          bridge.Height := 120; bridge.ElementCount := 2;
          bridge.Elements :=
            [ {| bridge.TagName := "section"; bridge.ID := "";
                 bridge.Classes := "";
                 bridge.Selector := bridge.Selector card;
                 bridge.InnerText := bridge.InnerText card;
                 bridge.OuterHTML := bridge.OuterHTML card |};
              {| bridge.TagName := "a"; bridge.ID := "buy";
                 bridge.Classes := "";
                 bridge.Selector := bridge.Selector button;
                 bridge.InnerText := bridge.InnerText button;
                 bridge.OuterHTML := bridge.OuterHTML button |} ] |};
     bridge.Instruction := "make the button purple";
     bridge.Screenshot := "iVBORw0KGgoAAAANSUhEUgAAAAEAAAABCAYAAAAfFcSJAAAADUlEQVR42mNk" |}.

(** A commit message typed in the form: the code units of [fix typo], and
    three spaces. *)
Definition fix_typo : GitCheckpointModal.jsstring :=
  [102; 105; 120; 32; 116; 121; 112; 111]%N.

Definition three_spaces : GitCheckpointModal.jsstring := [32; 32; 32]%N.


(** A repository with one tag more. *)
Definition with_tag (name h : string) (r : git.Repo) : git.Repo :=
  {| git.objects := git.objects r; git.branches := git.branches r;
     git.tags := <[name := h]> (git.tags r); git.HEAD := git.HEAD r;
     git.MERGE_HEAD := git.MERGE_HEAD r; git.index := git.index r;
     git.worktree := git.worktree r |}.

(** The branch [dev] at the second checkpoint, no branch [main], and a tag
    named [main] on the first checkpoint. *)
Definition on_dev_with_tag_main : git.Repo := with_tag "main" id1 on_dev.




End examples.

(* ===================================================================== *)
(** ** Proof automation                                                    *)
(* ===================================================================== *)

(** Closes a goal whose hypothesis says that a run returning a wrapped
    error returned [nil]. *)
Ltac failed_run :=
  let H := fresh in
  intros H; exfalso; revert H; unfold git.ret, git.Errorf;
  try match goal with
      | |- context [match ?e with Some _ => _ | None => _ end] => destruct e
      end;
  discriminate.


(* ===================================================================== *)
(** ** Properties of the instruction formatter                            *)
(* ===================================================================== *)

Section formatter_properties.
Import gostrings bridge.

Lemma formatElements_cons i total el rest parts :
  formatElements i total (el :: rest) parts =
    if (19 <=? i)%nat && (20 <? total)%nat
    then (parts ++ [elementDesc el]) ++ [moreElements (Z.of_nat total - 20)]
    else formatElements (S i) total rest (parts ++ [elementDesc el]).
Proof. reflexivity. Qed.

(** The loop started at index [i <= 19] appends the descriptors of the
    elements up to index 19, then the summary token when there are more
    than twenty elements in all. *)
Lemma formatElements_shape els : forall i total parts,
  (i <= 19)%nat -> (i + List.length els = total)%nat ->
  formatElements i total els parts =
    parts ++ map elementDesc (firstn (20 - i) els)
          ++ (if (20 <? total)%nat then [moreElements (Z.of_nat total - 20)] else []).
Proof.
  induction els as [|el rest IH]; intros i total parts Hi Htot.
  - cbn [formatElements List.length] in *.
    rewrite firstn_nil.
    assert (H : (20 <? total)%nat = false) by (apply Nat.ltb_ge; lia).
    rewrite H. cbn [map]. now rewrite !app_nil_r.
  - rewrite formatElements_cons. cbn [List.length] in Htot.
    destruct (Nat.leb_spec 19 i) as [H19|H19].
    + assert (i = 19)%nat by lia. subst i.
      destruct (Nat.ltb_spec 20 total) as [Hlt|Hge]; cbn [andb].
      * cbn [Nat.sub firstn map]. rewrite <- List.app_assoc. reflexivity.
      * assert (rest = []) by (destruct rest; [reflexivity | cbn in Htot; lia]).
        subst rest. reflexivity.
    + cbn [andb].
      rewrite IH by lia.
      replace (20 - i)%nat with (S (20 - S i)) by lia.
      cbn [firstn map]. rewrite <- List.app_assoc. reflexivity.
Qed.

Lemma loopDescriptors_cons i total el rest :
  loopDescriptors i total (el :: rest) =
    elementDesc el ::
      (if (19 <=? i)%nat && (20 <? total)%nat then []
       else loopDescriptors (S i) total rest).
Proof. reflexivity. Qed.

Lemma loopDescriptors_shape els : forall i total,
  (i <= 19)%nat -> (i + List.length els = total)%nat ->
  loopDescriptors i total els = map elementDesc (firstn (20 - i) els).
Proof.
  induction els as [|el rest IH]; intros i total Hi Htot.
  - now rewrite firstn_nil.
  - rewrite loopDescriptors_cons. cbn [List.length] in Htot.
    replace (20 - i)%nat with (S (20 - S i)) by lia. cbn [firstn map]. f_equal.
    destruct (Nat.leb_spec 19 i) as [H19|H19].
    + assert (i = 19)%nat by lia. subst i.
      destruct (Nat.ltb_spec 20 total) as [Hlt|Hge]; cbn [andb].
      * reflexivity.
      * assert (rest = []) by (destruct rest; [reflexivity | cbn in Htot; lia]).
        subst rest. reflexivity.
    + cbn [andb]. now apply IH; lia.
Qed.

(** The parts of the output: instruction, area clause, the descriptors of
    the first twenty elements, the summary token if there are more, and the
    closing parenthesis. *)
Lemma formatParts_shape msg :
  formatParts msg =
    [Instruction msg; areaClause (Area msg)]
      ++ emittedDescriptors msg
      ++ (if (20 <? List.length (Elements (Area msg)))%nat
          then [moreElements (Z.of_nat (List.length (Elements (Area msg))) - 20)]
          else [])
      ++ [")"].
Proof.
  unfold formatParts, emittedDescriptors.
  rewrite formatElements_shape, loopDescriptors_shape by lia.
  rewrite Nat.sub_0_r. cbn [app]. rewrite <- !List.app_assoc. reflexivity.
Qed.

Lemma emittedDescriptors_shape msg :
  emittedDescriptors msg = map elementDesc (firstn 20 (Elements (Area msg))).
Proof.
  unfold emittedDescriptors. now rewrite loopDescriptors_shape by lia.
Qed.

Lemma emittedDescriptors_length msg :
  List.length (emittedDescriptors msg)
  = Nat.min (List.length (Elements (Area msg))) 20.
Proof.
  rewrite emittedDescriptors_shape, length_map, length_firstn. lia.
Qed.



(** With no element selected the output is the instruction, the area
    clause and the closing parenthesis: no descriptor, no summary token. *)
Theorem formatMessage_no_elements msg :
  Elements (Area msg) = [] ->
  formatMessage msg = Instruction msg +:+ " " +:+ areaClause (Area msg) +:+ " " +:+ ")"
  /\ emittedDescriptors msg = [].
Proof.
  intros Hnone. unfold formatMessage, formatParts, emittedDescriptors.
  rewrite Hnone. split; reflexivity.
Qed.

Lemma formatMessage_no_elements_witness :
  formatMessage examples.msg_two_lines
  = Instruction examples.msg_two_lines +:+ " (Selected 0 elements in 300x120 area: )".
Proof.
  rewrite (proj1 (formatMessage_no_elements examples.msg_two_lines eq_refl)).
  reflexivity.
Defined.

(** A card and its button: the end-to-end scenario. *)
Example formatMessage_card_and_button :
  formatMessage examples.msg_card_and_button
  = "make the button purple (Selected 2 elements in 300x120 area: "
    +:+ "[div#card-1.card text:" +:+ String DQUOTE ("Plan Buy" +:+ String DQUOTE
          " html:<div id=card-1 class=card>Plan <button class=buy>Buy</button></div>] ")
    +:+ "[button.buy text:" +:+ String DQUOTE ("Buy" +:+ String DQUOTE
          " html:<button class=buy>Buy</button>] )").
Proof. vm_compute. reflexivity. Qed.

(** *** Newlines *)

Lemma list_ascii_of_string_app a b :
  list_ascii_of_string (a +:+ b) = list_ascii_of_string a ++ list_ascii_of_string b.
Proof. induction a as [|c a IH]; simpl; [reflexivity | now rewrite IH]. Qed.

Lemma contains_byte_app c a b :
  contains_byte c (a +:+ b) = contains_byte c a || contains_byte c b.
Proof. unfold contains_byte. now rewrite list_ascii_of_string_app, existsb_app. Qed.

Lemma contains_byte_String c d s :
  contains_byte c (String d s) = Ascii.eqb c d || contains_byte c s.
Proof. reflexivity. Qed.

(** A string all of whose bytes are bytes of [s] contains [c] only if [s]
    does. *)
Lemma contains_byte_incl c s' s :
  (forall x, In x (list_ascii_of_string s') -> In x (list_ascii_of_string s)) ->
  contains_byte c s = false -> contains_byte c s' = false.
Proof.
  unfold contains_byte. intros Hincl Hs.
  destruct (existsb (Ascii.eqb c) (list_ascii_of_string s')) eqn:He; [|reflexivity].
  apply existsb_exists in He as (x & Hx & Hcx).
  rewrite <- Hs. symmetry. apply existsb_exists. exists x. auto.
Qed.

Lemma ReplaceAll_removes old s new :
  contains_byte old new = false ->
  contains_byte old (ReplaceAll s old new) = false.
Proof.
  intros Hnew. induction s as [|c s IH]; cbn [ReplaceAll]; [reflexivity|].
  destruct (Ascii.eqb c old) eqn:Hc.
  - now rewrite contains_byte_app, Hnew, IH.
  - now rewrite contains_byte_String, Ascii.eqb_sym, Hc, IH.
Qed.

Lemma In_skipn_In {A} (x : A) n l : In x (skipn n l) -> In x l.
Proof.
  intros H. rewrite <- (firstn_skipn n l). apply in_or_app. now right.
Qed.

Lemma trimLeft_incl fuel : forall l x, In x (trimLeft fuel l) -> In x l.
Proof.
  induction fuel as [|f IH]; intros l x; cbn [trimLeft]; [auto|].
  destruct (spaceWidth l); [auto|].
  intros H. apply IH in H. now apply In_skipn_In in H.
Qed.

Lemma trimRightRev_incl fuel : forall l x, In x (trimRightRev fuel l) -> In x l.
Proof.
  induction fuel as [|f IH]; intros l x; cbn [trimRightRev]; [auto|].
  destruct (lastSpaceWidth l); [auto|].
  intros H. apply IH in H. now apply In_skipn_In in H.
Qed.

Lemma TrimSpace_incl s x :
  In x (list_ascii_of_string (TrimSpace s)) -> In x (list_ascii_of_string s).
Proof.
  unfold TrimSpace. rewrite list_ascii_of_string_of_list_ascii.
  intros H. apply in_rev in H. apply trimRightRev_incl in H.
  apply in_rev in H. now apply trimLeft_incl in H.
Qed.

Lemma substring_0_incl n : forall s x,
  In x (list_ascii_of_string (substring 0 n s)) -> In x (list_ascii_of_string s).
Proof.
  induction n as [|n IH]; intros [|c s] x; cbn; try tauto.
  intros [H|H]; [now left | right; now apply IH].
Qed.

Lemma string_of_uint_no_LF d : contains_byte LF (NilEmpty.string_of_uint d) = false.
Proof. induction d; cbn [NilEmpty.string_of_uint]; try reflexivity; exact IHd. Qed.

Lemma Itoa_no_LF z : contains_byte LF (Itoa z) = false.
Proof.
  unfold Itoa, NilZero.string_of_int, NilZero.string_of_uint.
  destruct (Z.to_int z) as [d|d]; destruct d; try reflexivity;
    try (rewrite ?contains_byte_String; cbn [NilEmpty.string_of_uint];
         rewrite ?contains_byte_String; apply string_of_uint_no_LF).
Qed.

Lemma Join_no_LF elems sep :
  contains_byte LF sep = false ->
  Forall (fun e => contains_byte LF e = false) elems ->
  contains_byte LF (Join elems sep) = false.
Proof.
  intros Hsep. induction 1 as [|e rest He Hrest IH]; [reflexivity|].
  destruct rest as [|e' rest]; [exact He|].
  change (Join (e :: e' :: rest) sep) with (e +:+ sep +:+ Join (e' :: rest) sep).
  now rewrite !contains_byte_app, He, Hsep, IH.
Qed.

Lemma innerTextClause_no_LF t : contains_byte LF (innerTextClause t) = false.
Proof.
  unfold innerTextClause, slice_to. cbv zeta. destruct (String.eqb t ""); [reflexivity|].
  assert (Ht : contains_byte LF (TrimSpace (ReplaceAll t LF " ")) = false).
  { eapply contains_byte_incl; [apply TrimSpace_incl|].
    now apply ReplaceAll_removes. }
  rewrite contains_byte_app, (contains_byte_String _ DQUOTE), contains_byte_app.
  destruct (50 <? String.length _)%nat.
  - rewrite contains_byte_app.
    rewrite (contains_byte_incl LF _ _ (substring_0_incl 50 _) Ht). reflexivity.
  - rewrite Ht. reflexivity.
Qed.

Lemma outerHTMLClause_no_LF h : contains_byte LF (outerHTMLClause h) = false.
Proof.
  unfold outerHTMLClause, slice_to. cbv zeta. destruct (String.eqb h ""); [reflexivity|].
  assert (Ht : contains_byte LF (TrimSpace (ReplaceAll h LF " ")) = false).
  { eapply contains_byte_incl; [apply TrimSpace_incl|].
    now apply ReplaceAll_removes. }
  rewrite contains_byte_app.
  destruct (100 <? String.length _)%nat.
  - rewrite contains_byte_app.
    rewrite (contains_byte_incl LF _ _ (substring_0_incl 100 _) Ht). reflexivity.
  - rewrite Ht. reflexivity.
Qed.

(** The formatter passes the newlines of the instruction and of the
    selectors through, and no others: with none in those, the output is one
    line. *)
Theorem formatMessage_single_line msg :
  contains_byte LF (Instruction msg) = false ->
  Forall (fun el => contains_byte LF (Selector el) = false) (Elements (Area msg)) ->
  contains_byte LF (formatMessage msg) = false.
Proof.
  intros Hinstr Hsel. unfold formatMessage.
  apply Join_no_LF; [reflexivity|].
  rewrite formatParts_shape, emittedDescriptors_shape.
  repeat apply Forall_app_2.
  - repeat constructor; [exact Hinstr|].
    unfold areaClause. rewrite !contains_byte_app, !Itoa_no_LF. reflexivity.
  - apply Forall_map. eapply List.Forall_impl; [|apply Forall_take; exact Hsel].
    intros el Hel. unfold elementDesc. cbn beta in Hel.
    now rewrite !contains_byte_app, Hel, innerTextClause_no_LF, outerHTMLClause_no_LF.
  - destruct (20 <? _)%nat; repeat constructor.
    unfold moreElements. now rewrite !contains_byte_app, Itoa_no_LF.
  - repeat constructor.
Qed.

Lemma formatMessage_single_line_witness :
  contains_byte LF (formatMessage examples.msg25) = false.
Proof.
  apply (formatMessage_single_line examples.msg25).
  - reflexivity.
  - vm_compute. repeat constructor.
Defined.

(** C8. An instruction typed on two lines comes out on two lines: the
    formatter writes [msg.Instruction] as it is, so the output is not a
    single line for every input. *)
Theorem C8_instruction_newline_survives :
  formatMessage examples.msg_two_lines
  = "make the button purple" +:+ String LF "and round"
      +:+ " (Selected 0 elements in 300x120 area: )"
  /\ contains_byte LF (formatMessage examples.msg_two_lines) = true.
Proof. split; vm_compute; reflexivity. Qed.

(** *** Truncation *)

Lemma length_substring_0 n : forall s,
  (n <= String.length s)%nat -> String.length (substring 0 n s) = n.
Proof.
  induction n as [|n IH]; intros [|c s] H; cbn in *; try reflexivity; try lia.
  f_equal. apply IH. lia.
Qed.

Lemma prefix_substring_0 n s :
  (n <= String.length s)%nat -> String.prefix (substring 0 n s) s = true.
Proof.
  intros H. apply prefix_correct. now rewrite length_substring_0.
Qed.

Lemma TrimSpace_ReplaceAll_empty : TrimSpace (ReplaceAll "" LF " ") = "".
Proof. reflexivity. Qed.

(** Lengths are counted in bytes.  An inner text that is more than 50
    bytes long (51, say) once its newlines are spaces and it is trimmed is
    cut to its first 50 bytes followed by three dots; one of 50 bytes or
    fewer is written whole; markup of more than 100 bytes is cut to its
    first 100 bytes followed by three dots. *)
Theorem truncation_counts_bytes :
  (forall t,
     (50 < String.length (TrimSpace (ReplaceAll t LF " ")))%nat ->
     innerTextClause t
     = " text:" +:+ String DQUOTE
         ((slice_to (TrimSpace (ReplaceAll t LF " ")) 50 +:+ "...") +:+ String DQUOTE "")
     /\ String.length (slice_to (TrimSpace (ReplaceAll t LF " ")) 50) = 50%nat
     /\ String.prefix (slice_to (TrimSpace (ReplaceAll t LF " ")) 50)
          (TrimSpace (ReplaceAll t LF " ")) = true)
  /\ (forall t,
        t <> "" ->
        (String.length (TrimSpace (ReplaceAll t LF " ")) <= 50)%nat ->
        innerTextClause t
        = " text:" +:+ String DQUOTE
            (TrimSpace (ReplaceAll t LF " ") +:+ String DQUOTE ""))
  /\ (forall h,
        (100 < String.length (TrimSpace (ReplaceAll h LF " ")))%nat ->
        outerHTMLClause h
        = " html:" +:+ (slice_to (TrimSpace (ReplaceAll h LF " ")) 100 +:+ "...")
        /\ String.length (slice_to (TrimSpace (ReplaceAll h LF " ")) 100) = 100%nat
        /\ String.prefix (slice_to (TrimSpace (ReplaceAll h LF " ")) 100)
             (TrimSpace (ReplaceAll h LF " ")) = true).
Proof.
  split; [|split].
  - intros t Hlen. unfold innerTextClause, slice_to. cbv zeta.
    destruct (String.eqb_spec t "") as [->|Hne].
    + rewrite TrimSpace_ReplaceAll_empty in Hlen. cbn in Hlen. lia.
    + pose proof Hlen as Hlt. apply Nat.ltb_lt in Hlt. rewrite Hlt.
      split; [reflexivity|].
      split; [apply length_substring_0 | apply prefix_substring_0]; lia.
  - intros t Hne Hlen. unfold innerTextClause. cbv zeta.
    destruct (String.eqb_spec t "") as [->|_]; [congruence|].
    apply Nat.ltb_ge in Hlen. rewrite Hlen. reflexivity.
  - intros h Hlen. unfold outerHTMLClause, slice_to. cbv zeta.
    destruct (String.eqb_spec h "") as [->|Hne].
    + rewrite TrimSpace_ReplaceAll_empty in Hlen. cbn in Hlen. lia.
    + pose proof Hlen as Hlt. apply Nat.ltb_lt in Hlt. rewrite Hlt.
      split; [reflexivity|].
      split; [apply length_substring_0 | apply prefix_substring_0]; lia.
Qed.

(** Fifty-one letters are cut to fifty and three dots, fifty letters are
    left alone, a hundred and one letters of markup are cut to a hundred. *)
Lemma truncation_counts_bytes_witness :
  innerTextClause examples.fifty_one_letters
  = " text:" +:+ String DQUOTE ((examples.fifty_letters +:+ "...") +:+ String DQUOTE "")
  /\ innerTextClause examples.fifty_letters
     = " text:" +:+ String DQUOTE (examples.fifty_letters +:+ String DQUOTE "")
  /\ outerHTMLClause examples.hundred_and_one_letters
     = " html:" +:+ (Repeat "a" 100 +:+ "...").
Proof.
  destruct truncation_counts_bytes as (H51 & H50 & H101).
  split; [|split].
  - destruct (H51 examples.fifty_one_letters) as (-> & _);
      [vm_compute; lia | reflexivity].
  - rewrite (H50 examples.fifty_letters); [reflexivity | discriminate | vm_compute; lia].
  - destruct (H101 examples.hundred_and_one_letters) as (-> & _);
      [vm_compute; lia | reflexivity].
Defined.

(** C9.  The code cuts by bytes where its comments, as the claim, count
    characters.  An inner text of fifty accented letters, which trimming
    leaves as it is, is a hundred bytes long: it is not written whole but
    cut after its twenty-fifth letter.  An inner text of seventeen euro
    signs, fifty-one bytes, is cut after fifty bytes, inside the
    seventeenth sign: sixteen signs and the first two bytes of the next
    are written.  Markup of fifty-one accented letters, a hundred and two
    bytes, is cut after the fiftieth letter. *)
Theorem C9_accented_text_is_cut_by_bytes :
  (utf8_chars examples.fifty_accents = 50%nat
   /\ TrimSpace (ReplaceAll examples.fifty_accents LF " ") = examples.fifty_accents
   /\ innerTextClause examples.fifty_accents
      <> " text:" +:+ String DQUOTE (examples.fifty_accents +:+ String DQUOTE "")
   /\ innerTextClause examples.fifty_accents
      = " text:" +:+ String DQUOTE
          ((Repeat examples.e_acute 25 +:+ "...") +:+ String DQUOTE ""))
  /\ (utf8_chars examples.seventeen_euros = 17%nat
      /\ String.length examples.seventeen_euros = 51%nat
      /\ innerTextClause examples.seventeen_euros
         = " text:" +:+ String DQUOTE
             (((Repeat examples.euro 16
                +:+ String (ascii_of_nat 226) (String (ascii_of_nat 130) ""))
               +:+ "...") +:+ String DQUOTE ""))
  /\ (utf8_chars (Repeat examples.e_acute 51) = 51%nat
      /\ outerHTMLClause (Repeat examples.e_acute 51)
         = " html:" +:+ (Repeat examples.e_acute 50 +:+ "...")).
Proof.
  repeat split; try (vm_compute; reflexivity).
  vm_compute. discriminate.
Qed.

(** *** The stated element count *)

(** C10, as the code has it: the second part of the output is the area
    clause with the [ElementCount] field in it, whatever the length of the
    element list; the descriptors written are those of the first twenty
    elements at most; so when the field differs from the length of a list
    of twenty elements or fewer, it differs from the number of descriptors
    written. *)
Theorem C10_stated_count_is_the_field msg :
  nth_error (formatParts msg) 1
  = Some ("(Selected " +:+ Itoa (ElementCount (Area msg)) +:+ " elements in "
            +:+ Itoa (Width (Area msg)) +:+ "x" +:+ Itoa (Height (Area msg))
            +:+ " area:")
  /\ List.length (emittedDescriptors msg)
     = Nat.min (List.length (Elements (Area msg))) 20
  /\ (ElementCount (Area msg) <> Z.of_nat (List.length (Elements (Area msg))) ->
      (List.length (Elements (Area msg)) <= 20)%nat ->
      ElementCount (Area msg) <> Z.of_nat (List.length (emittedDescriptors msg))).
Proof.
  split; [|split].
  - rewrite formatParts_shape. reflexivity.
  - apply emittedDescriptors_length.
  - intros Hne Hle. rewrite emittedDescriptors_length.
    now rewrite Nat.min_l by exact Hle.
Qed.

(** Two buttons announced as five: the clause says five, two descriptors
    follow. *)
Lemma C10_witness_two_as_five :
  nth_error (formatParts examples.msg2_as_5) 1
  = Some "(Selected 5 elements in 300x120 area:"
  /\ ElementCount (Area examples.msg2_as_5)
     <> Z.of_nat (List.length (emittedDescriptors examples.msg2_as_5)).
Proof.
  destruct (C10_stated_count_is_the_field examples.msg2_as_5) as (Hclause & _ & Hne).
  split.
  - rewrite Hclause. reflexivity.
  - apply Hne; [vm_compute; discriminate | vm_compute; lia].
Defined.

(** C10 as stated fails past the cap: twenty-five elements announced as
    twenty.  The field and the length of the list disagree, and the stated
    count is the number of descriptors written. *)
Lemma C10_counterexample_25_as_20 :
  ElementCount (Area examples.msg25_as_20)
  <> Z.of_nat (List.length (Elements (Area examples.msg25_as_20)))
  /\ ElementCount (Area examples.msg25_as_20)
     = Z.of_nat (List.length (emittedDescriptors examples.msg25_as_20)).
Proof. split; [vm_compute; discriminate | reflexivity]. Qed.

End formatter_properties.

(* ===================================================================== *)
(** ** Properties of the correlated transport                             *)
(* ===================================================================== *)

Section transport_properties.
Import useWebSocket.
Context {Handler Payload : Type}.
Implicit Types (st : State Handler Payload) (h : Handler) (id : Z).

Lemma truthy_nonzero id : id <> 0%Z -> truthy (Some id) = Some id.
Proof. intros H. cbn. now destruct (Z.eqb_spec id 0). Qed.

(** What [sendMessage] does on an open socket. *)
Lemma sendMessage_open st now message h :
  ws st = Some OPEN ->
  fst (sendMessage now message (Some h) st) = Some now
  /\ messageHandlers (snd (sendMessage now message (Some h) st))
     = <[now := h]> (messageHandlers st)
  /\ calls (snd (sendMessage now message (Some h) st)) = calls st.
Proof. intros Hopen. unfold sendMessage. rewrite Hopen. cbn. auto. Qed.

(** A message whose id has a handler: the handler is called once with the
    message, and unregistered when the status is terminal. *)
Lemma onmessage_registered st id h status :
  id <> 0%Z ->
  messageHandlers st !! id = Some h ->
  let data := {| data_id := Some id; data_status := status |} in
  calls (onmessage data st) = calls st ++ [(h, data)]
  /\ messageHandlers (onmessage data st)
     = if terminal status then delete id (messageHandlers st) else messageHandlers st.
Proof.
  intros Hid Hh data. unfold onmessage.
  cbn [data_id data]. rewrite (truthy_nonzero id Hid). cbn [log messageHandlers].
  rewrite Hh. cbn [data_status data]. destruct (terminal status); cbn; auto.
Qed.

(** A message whose id has no handler is dropped: nothing is called,
    nothing is unregistered, a warning is written. *)
Lemma onmessage_unregistered st data :
  match truthy (data_id data) with
  | Some id => messageHandlers st !! id = None
  | None => True
  end ->
  calls (onmessage data st) = calls st
  /\ messageHandlers (onmessage data st) = messageHandlers st
  /\ console (onmessage data st) = console st ++ [warn_no_handler (data_id data)].
Proof.
  intros H. unfold onmessage. destruct (truthy (data_id data)) as [id|].
  - rewrite H. cbn. auto.
  - cbn. auto.
Qed.

(** C6. On an open connection, [sendMessage] at a non-zero time [now] with
    a response handler returns [now] as the request id and registers the
    handler under it; the next inbound message with that id and status
    [complete] calls the handler once, with that message, and removes the
    entry; a second such message calls nothing, changes no entry and only
    leaves a warning on the console. *)
Theorem C6_round_trip st now message h :
  ws st = Some OPEN ->
  now <> 0%Z ->
  let data := {| data_id := Some now; data_status := "complete" |} in
  let st1 := snd (sendMessage now message (Some h) st) in
  let st2 := onmessage data st1 in
  let st3 := onmessage data st2 in
  fst (sendMessage now message (Some h) st) = Some now
  /\ messageHandlers st1 !! now = Some h
  /\ calls st2 = calls st1 ++ [(h, data)]
  /\ messageHandlers st2 !! now = None
  /\ calls st3 = calls st2
  /\ messageHandlers st3 = messageHandlers st2
  /\ console st3 = console st2 ++ [warn_no_handler (Some now)].
Proof.
  intros Hopen Hnow data st1 st2 st3.
  destruct (sendMessage_open st now message h Hopen) as (Hid & Hreg & _).
  assert (H1 : messageHandlers st1 !! now = Some h).
  { subst st1. rewrite Hreg. apply lookup_insert_eq. }
  destruct (onmessage_registered st1 now h "complete" Hnow H1) as (Hcalls & Hdel).
  fold data in Hcalls, Hdel. fold st2 in Hcalls, Hdel.
  change (terminal "complete") with true in Hdel. cbv iota in Hdel.
  assert (H2 : messageHandlers st2 !! now = None).
  { rewrite Hdel. apply lookup_delete_eq. }
  destruct (onmessage_unregistered st2 data) as (Hc3 & Hm3 & Hw3).
  { cbn [data_id data]. now rewrite (truthy_nonzero now Hnow). }
  fold st3 in Hc3, Hm3, Hw3.
  repeat split; assumption.
Qed.

(** No callback but [onmessage] touches the handlers or calls one. *)
Lemma handle_keeps_handlers st e :
  match e with ev_message _ => False | _ => True end ->
  messageHandlers (handle e st) = messageHandlers st
  /\ calls (handle e st) = calls st.
Proof.
  destruct e; cbn [handle]; try contradiction; intros _.
  - split; reflexivity.
  - split; reflexivity.
  - unfold onclose. cbv zeta. cbn [reconnectAttempts log].
    destruct (_ <? _)%nat; split; reflexivity.
  - split; reflexivity.
Qed.

(** A handler stays registered through any event other than a terminal
    message with its id. *)
Lemma handle_keeps_entry st e id :
  unregisters id e = false ->
  messageHandlers (handle e st) !! id = messageHandlers st !! id.
Proof.
  intros Hun. destruct e as [|data| | |];
    try (match goal with
         | |- context [handle ?e _] =>
             now rewrite (proj1 (handle_keeps_handlers st e I))
         end).
  cbn [handle unregisters] in *. unfold onmessage.
  destruct (truthy (data_id data)) as [id'|]; [|reflexivity].
  destruct (messageHandlers st !! id') as [h'|] eqn:Hh'; [|reflexivity].
  cbn [log messageHandlers].
  destruct (terminal (data_status data)); [|reflexivity].
  rewrite andb_true_r in Hun. apply Z.eqb_neq in Hun.
  cbn. now apply lookup_delete_ne.
Qed.

Lemma run_keeps_entry evs : forall st id,
  forallb (fun e => negb (unregisters id e)) evs = true ->
  messageHandlers (run evs st) !! id = messageHandlers st !! id.
Proof.
  induction evs as [|e evs IH]; intros st id Hall; [reflexivity|].
  cbn [forallb] in Hall. apply andb_true_iff in Hall as [He Hall].
  apply negb_true_iff in He.
  change (run (e :: evs) st) with (run evs (handle e st)).
  rewrite IH by exact Hall. now apply handle_keeps_entry.
Qed.

(** C3, as the code has it: [onclose] fails no pending request and leaves
    every handler registered: the handler map and the calls made are as
    before the close; and a handler stays registered through every later
    close, error, reconnection and message, until a message with its id
    and a terminal status arrives. *)
Theorem C3_close_keeps_pending_handlers st :
  messageHandlers (onclose st) = messageHandlers st
  /\ calls (onclose st) = calls st
  /\ (forall evs id,
        forallb (fun e => negb (unregisters id e)) evs = true ->
        messageHandlers (run evs st) !! id = messageHandlers st !! id).
Proof.
  split; [|split].
  - apply (handle_keeps_handlers st ev_close I).
  - apply (handle_keeps_handlers st ev_close I).
  - intros evs id. apply run_keeps_entry.
Qed.

End transport_properties.

Section transport_examples.
Import useWebSocket.

(** One request sent and answered on the connection of the examples. *)
Lemma C6_witness_one_request :
  fst (sendMessage examples.request_id "select" (Some 7%nat) examples.connected)
  = Some examples.request_id
  /\ calls (onmessage examples.completed examples.one_pending)
     = [(7%nat, examples.completed)]
  /\ messageHandlers (onmessage examples.completed examples.one_pending)
       !! examples.request_id = None
  /\ calls (onmessage examples.completed
              (onmessage examples.completed examples.one_pending))
     = [(7%nat, examples.completed)].
Proof.
  assert (Hopen : ws examples.connected = Some OPEN) by reflexivity.
  assert (Hnow : examples.request_id <> 0%Z) by discriminate.
  destruct (C6_round_trip examples.connected examples.request_id "select" 7%nat
              Hopen Hnow) as (Hid & _ & Hcall & Hgone & Hdup & _).
  split; [exact Hid|]. split; [exact Hcall|]. split; [exact Hgone|].
  unfold examples.one_pending, examples.completed. rewrite Hdup. exact Hcall.
Defined.

(** The pending request of the examples through a close, five reconnection
    attempts and a message for another request: still registered. *)
Lemma C3_witness_still_registered :
  messageHandlers
    (run [ev_close; ev_timeout; ev_close; ev_timeout; ev_open;
          ev_message {| data_id := Some 5%Z; data_status := "complete" |};
          ev_close]
       examples.one_pending) !! examples.request_id = Some 7%nat.
Proof.
  destruct (C3_close_keeps_pending_handlers examples.one_pending) as (_ & _ & Hrun).
  rewrite Hrun; reflexivity.
Defined.

(** C3 as stated fails: the request of the examples is pending when the
    connection closes, and after the close its handler is still in the map
    and has not been called. *)
Lemma C3_counterexample_pending_survives_close :
  messageHandlers examples.one_pending !! examples.request_id = Some 7%nat
  /\ messageHandlers (onclose examples.one_pending) !! examples.request_id
     = Some 7%nat
  /\ calls (onclose examples.one_pending) = [].
Proof. repeat split; reflexivity. Qed.

End transport_examples.

(* ===================================================================== *)
(** ** Properties of the checkpoint manager                               *)
(* ===================================================================== *)

Section manager_properties.
Import gostrings git.
Implicit Types (E : Env) (r : Repo) (c : Cmd).

(** *** The names of refs *)

Lemma prefix_append p x : String.prefix p (p +:+ x) = true.
Proof.
  induction p as [|c p IH]; [now destruct x|].
  cbn [String.prefix]. change (String c p +:+ x) with (String c (p +:+ x)).
  cbn [String.prefix]. destruct (ascii_dec c c); [exact IH | contradiction].
Qed.

Lemma substring_0_length s : substring 0 (String.length s) s = s.
Proof. induction s as [|c s IH]; [reflexivity | cbn; now rewrite IH]. Qed.

Lemma drop_bytes_append p x : drop_bytes (String.length p) (p +:+ x) = x.
Proof.
  unfold drop_bytes. induction p as [|c p IH].
  - change ("" +:+ x) with x. cbn [String.length]. rewrite Nat.sub_0_r.
    apply substring_0_length.
  - change (String c p +:+ x) with (String c (p +:+ x)). exact IH.
Qed.

Lemma lookup_ref_heads r x : lookup_ref r ("refs/heads/" +:+ x) = branches r !! x.
Proof.
  unfold lookup_ref. rewrite prefix_append.
  pose proof (drop_bytes_append "refs/heads/" x) as H.
  change (String.length "refs/heads/") with 11 in H. now rewrite H.
Qed.

Lemma lookup_ref_tags r x : lookup_ref r ("refs/tags/" +:+ x) = tags r !! x.
Proof.
  unfold lookup_ref.
  change (String.prefix "refs/heads/" ("refs/tags/" +:+ x)) with false.
  cbv iota. rewrite prefix_append.
  pose proof (drop_bytes_append "refs/tags/" x) as H.
  change (String.length "refs/tags/") with 10 in H. now rewrite H.
Qed.

(** What [main] stands for: the tag of that name, else the branch. *)
Lemma resolve_main r :
  resolve r "main" = match tags r !! "main" with
                     | Some h => Some h
                     | None => branches r !! "main"
                     end.
Proof.
  unfold resolve, ref_rules. change (String.eqb "main" "HEAD") with false.
  cbv iota. cbn [first_ref].
  change (lookup_ref r "main") with (@None string).
  change (lookup_ref r ("refs/" +:+ "main")) with (@None string).
  rewrite lookup_ref_tags, lookup_ref_heads.
  destruct (tags r !! "main"); [reflexivity|].
  now destruct (branches r !! "main").
Qed.



(** *** What the commands leave alone *)

Lemma ExitError_nil code : ExitError code = None <-> code = 0%Z.
Proof.
  unfold ExitError. destruct (Z.eqb_spec code 0); split; congruence.
Qed.





(** A [checkout main] that succeeds leaves [HEAD] on the branch [main],
    or, when [main] is a tag only, detached. *)
Lemma checkout_main_head E envVars r :
  exit_status (git E envVars (checkout "main") r) = 0%Z ->
  HEAD (after (git E envVars (checkout "main") r)) = OnBranch "main"
  \/ (branches r !! "main" = None
      /\ exists t, tags r !! "main" = Some t
                   /\ HEAD (after (git E envVars (checkout "main") r)) = Detached t).
Proof.
  cbn [git]. unfold git_checkout. rewrite resolve_main.
  destruct (MERGE_HEAD r); [discriminate|].
  destruct (branches r !! "main") as [h|] eqn:Hmain.
  - destruct (switch E _ _ r) as [[idx wt]|]; [now left | discriminate].
  - destruct (tags r !! "main") as [t|]; [|discriminate].
    destruct (switch E _ _ r) as [[idx wt]|]; [|discriminate].
    intros _. right. split; [reflexivity|]. now exists t.
Qed.


Lemma TrimSpace_HEAD : TrimSpace ("HEAD" +:+ NL) = "HEAD".
Proof. reflexivity. Qed.


Lemma current_branch_output E r :
  runGitCommandWithOutput E rev_parse_abbrev_ref_HEAD r =
    match HEAD r with
    | OnBranch b =>
        match branches r !! b with
        | Some _ => ((abbrev_ref r b +:+ NL, None), r)
        | None => (("", Some "exit status 128"), r)
        end
    | Detached _ => (("HEAD" +:+ NL, None), r)
    end.
Proof.
  unfold runGitCommandWithOutput. cbn [git].
  destruct (HEAD r) as [b|h]; [|reflexivity].
  destruct (branches r !! b); reflexivity.
Qed.

Lemma is_err_ExitError code : is_err (ExitError code) = false -> code = 0%Z.
Proof.
  intros H. apply ExitError_nil. now destruct (ExitError code).
Qed.

Lemma bind_run {A B} (m : M A) (k : A -> M B) r :
  bind m k r = k (fst (m r)) (snd (m r)).
Proof. unfold bind. now destruct (m r). Qed.






Lemma head_commit_after_reset h r idx wt :
  head_commit (set_merge_head None (set_trees idx wt (move_head h r))) = Some h.
Proof.
  unfold head_commit, move_head. destruct (HEAD r) as [b|h0]; cbn; [|reflexivity].
  apply lookup_insert_eq.
Qed.

(** *** Failures *)





Lemma rev_parse_verify_after E rev r :
  after (git E [] (rev_parse_verify rev) r) = r.
Proof. cbn [git]. now destruct (resolve r rev). Qed.





(** After a [CheckoutCommit] that returns [nil], the current position is
    the commit its argument names once the working copy is on [main]. *)
Theorem CheckoutCommit_moves_to E commitHash r r' :
  CheckoutCommit E commitHash r = (None, r') ->
  exists r1,
    ensureMainBranch E r = (None, r1)
    /\ resolve r1 commitHash = head_commit r'
    /\ objects r' = objects r1.
Proof.
  unfold CheckoutCommit. rewrite bind_run.
  destruct (ensureMainBranch E r) as [[e|] r1]; cbn [fst snd is_err]; [failed_run|].
  unfold runGitCommand. cbn [git]. unfold git_reset_hard.
  destruct (resolve r1 commitHash) as [h|] eqn:Hres; [|discriminate].
  destruct (lookup_object (objects r1) h); [|discriminate].
  cbn [exit_status after ok]. intros [= <-].
  exists r1. split; [reflexivity|]. split.
  - rewrite Hres. symmetry. apply (head_commit_after_reset h r1).
  - cbn. unfold move_head. now destruct (HEAD r1).
Qed.

End manager_properties.

Section manager_examples.
Import gostrings git.


(** A travel to the first of two checkpoints. *)
Lemma CheckoutCommit_moves_to_witness :
  head_commit (snd (CheckoutCommit examples.env examples.id1 examples.two_checkpoints))
  = Some examples.id1.
Proof.
  destruct (CheckoutCommit_moves_to examples.env examples.id1 examples.two_checkpoints
              (snd (CheckoutCommit examples.env examples.id1 examples.two_checkpoints))
              eq_refl) as (r1 & Hr1 & <- & _).
  injection Hr1 as <-. reflexivity.
Defined.



(** C1.  Two checkpoints on [main]; travelling to the first succeeds and
    makes it the current position, and the history listed afterwards has
    lost the second: [reset --hard] moved the only ref that led to it, and
    [log --all] lists what refs lead to. *)
Theorem C1_later_checkpoint_not_listed :
  map Hash (fst (fst (GetCommitHistory examples.env 50 examples.two_checkpoints)))
  = [examples.id2; examples.id1]
  /\ fst (CheckoutCommit examples.env examples.id1 examples.two_checkpoints) = None
  /\ head_commit (snd (CheckoutCommit examples.env examples.id1 examples.two_checkpoints))
     = Some examples.id1
  /\ objects (snd (CheckoutCommit examples.env examples.id1 examples.two_checkpoints))
     = [examples.checkpoint2; examples.checkpoint1]
  /\ fst (GetCommitHistory examples.env 50
            (snd (CheckoutCommit examples.env examples.id1 examples.two_checkpoints)))
     = ([{| Hash := examples.id1; Message := "first version"; Author := "Layrr";
            Date := 0; ShortHash := "aaaaaaa" |}], None).
Proof. repeat split; vm_compute; reflexivity. Qed.

(** C2.  On a branch whose name is [main] followed by a no-break space,
    [ensureMainBranch] takes the trimmed name for [main] and does nothing;
    the checkpoint succeeds and the working copy is on that branch, not on
    [main], which does not exist. *)
Theorem C2_branch_name_trimmed_to_main :
  TrimSpace (examples.main_nbsp +:+ NL) = "main"
  /\ fst (CreateCommit examples.env "fix typo" examples.on_main_nbsp) = None
  /\ HEAD (snd (CreateCommit examples.env "fix typo" examples.on_main_nbsp))
     = OnBranch examples.main_nbsp
  /\ examples.main_nbsp <> "main"
  /\ branches (snd (CreateCommit examples.env "fix typo" examples.on_main_nbsp)) !! "main"
     = None
  /\ fst (CheckoutCommit examples.env examples.id1 examples.on_main_nbsp) = None
  /\ HEAD (snd (CheckoutCommit examples.env examples.id1 examples.on_main_nbsp))
     = OnBranch examples.main_nbsp.
Proof. repeat split; try (vm_compute; reflexivity). discriminate. Qed.

End manager_examples.

Section checkpoint_properties.
Import gostrings git.
Implicit Types (E : Env) (r : Repo).

(** *** Nothing to record *)

















End checkpoint_properties.

Section listing_properties.
Import gostrings git.
Implicit Types (E : Env) (r : Repo).

(** *** The history walk *)





(** *** The order of the log *)



End listing_properties.

Section parsing_properties.
Import gostrings git.

(** *** Splitting and trimming the output of the log *)






















End parsing_properties.

Section new_checkpoint_properties.
Import gostrings git.
Implicit Types (E : Env) (r : Repo).

(** *** The new checkpoint in the list *)







Lemma parseLines_acc E lines : forall acc,
  parseLines E lines acc = acc ++ parseLines E lines [].
Proof.
  induction lines as [|l lines IH]; intros acc; cbn [parseLines].
  - now rewrite app_nil_r.
  - destruct (String.eqb l ""); [apply IH|].
    destruct (SplitN l PIPE 5) as [|p0 [|p1 [|p2 [|p3 [|p4 [|p5 ps]]]]]]; try apply IH.
    rewrite IH, (IH ([] ++ _)). now rewrite <- List.app_assoc.
Qed.





End new_checkpoint_properties.

Section checkpoint_outcomes.
Import gostrings git.
Implicit Types (E : Env) (r : Repo).



End checkpoint_outcomes.

Section checkpoint_examples.
Import gostrings git.




End checkpoint_examples.

Section repair_properties.
Import gostrings git.
Implicit Types (E : Env) (r : Repo).

(** *** Branch repair done twice *)










End repair_properties.

Section repair_examples.
Import gostrings git.


(** With a tag named [main] and no branch of that name, the repair does
    not create the branch: [rev-parse --verify main] finds the tag, and
    [checkout main] detaches [HEAD] at the commit of the tag, which the
    merge then brings forward.  [ensureMainBranch] returns [nil] with
    [HEAD] on no branch, a second run moves [HEAD] again, and a
    [CheckoutCommit] returns [nil] with [HEAD] detached. *)
Lemma tag_named_main_detaches :
  HEAD examples.on_dev_with_tag_main = OnBranch "dev"
  /\ tags examples.on_dev_with_tag_main !! "main" = Some examples.id1
  /\ fst (ensureMainBranch examples.env examples.on_dev_with_tag_main) = None
  /\ HEAD (snd (ensureMainBranch examples.env examples.on_dev_with_tag_main))
     = Detached examples.id2
  /\ branches (snd (ensureMainBranch examples.env examples.on_dev_with_tag_main))
       !! "main" = None
  /\ fst (ensureMainBranch examples.env
            (snd (ensureMainBranch examples.env examples.on_dev_with_tag_main))) = None
  /\ HEAD (snd (ensureMainBranch examples.env
                  (snd (ensureMainBranch examples.env examples.on_dev_with_tag_main))))
     = Detached examples.id1
  /\ fst (CheckoutCommit examples.env examples.id1 examples.on_dev_with_tag_main) = None
  /\ HEAD (snd (CheckoutCommit examples.env examples.id1 examples.on_dev_with_tag_main))
     = Detached examples.id1.
Proof. repeat split; vm_compute; reflexivity. Qed.

End repair_examples.

(* ===================================================================== *)
(** ** Further properties of the correlated transport                     *)
(* ===================================================================== *)

Section transport_invariants.
Import useWebSocket.
Context {Handler Payload : Type}.
Implicit Types (st : State Handler Payload) (h : Handler) (id : Z).

(** The callbacks only take handlers away. *)
Lemma handle_handlers_subset st e id h :
  messageHandlers (handle e st) !! id = Some h ->
  messageHandlers st !! id = Some h.
Proof.
  destruct e as [|data| | |];
    try (match goal with
         | |- context [handle ?e _] =>
             now rewrite (proj1 (handle_keeps_handlers st e I))
         end).
  cbn [handle]. unfold onmessage.
  destruct (truthy (data_id data)) as [id'|]; [|now cbn].
  destruct (messageHandlers st !! id') as [h'|] eqn:Hh'; [|now cbn].
  cbn [log messageHandlers].
  destruct (terminal (data_status data)); [|now cbn].
  cbn. intros H. apply lookup_delete_Some in H. tauto.
Qed.

(** What one callback calls: nothing, or the handler registered under the
    id of the message it was given. *)
Lemma handle_calls st e :
  exists new,
    calls (handle e st) = calls st ++ new
    /\ Forall (fun c => exists id, truthy (data_id (snd c)) = Some id
                                   /\ messageHandlers st !! id = Some (fst c)) new.
Proof.
  destruct e as [|data| | |];
    try (exists []; split; [|constructor];
         match goal with
         | |- context [handle ?e _] =>
             now rewrite (proj2 (handle_keeps_handlers st e I)), app_nil_r
         end).
  cbn [handle]. unfold onmessage.
  destruct (truthy (data_id data)) as [id'|] eqn:Hid;
    [|exists []; cbn; now rewrite app_nil_r].
  destruct (messageHandlers st !! id') as [h'|] eqn:Hh';
    [|exists []; cbn; now rewrite app_nil_r].
  exists [(h', data)]. split.
  - cbn [log messageHandlers]. destruct (terminal (data_status data)); reflexivity.
  - constructor; [|constructor]. exists id'. now split.
Qed.

(** Whatever arrives on the connection, and in whatever order, a
    response handler is only called with a message whose id is the id it
    was registered under. *)
Theorem responses_reach_their_handler evs : forall st,
  exists new,
    calls (run evs st) = calls st ++ new
    /\ Forall (fun c => exists id, truthy (data_id (snd c)) = Some id
                                   /\ messageHandlers st !! id = Some (fst c)) new.
Proof.
  induction evs as [|e evs IH]; intros st.
  - exists []. cbn. rewrite app_nil_r. split; [reflexivity | constructor].
  - change (run (e :: evs) st) with (run evs (handle e st)).
    destruct (IH (handle e st)) as (new2 & -> & H2).
    destruct (handle_calls st e) as (new1 & -> & H1).
    exists (new1 ++ new2). split; [now rewrite <- List.app_assoc|].
    apply Forall_app. split; [exact H1|].
    eapply List.Forall_impl; [|exact H2].
    intros [h d] (id & Hid & Hh). exists id. split; [exact Hid|].
    now apply (handle_handlers_subset st e).
Qed.

(** Messages with the id of a pending request and a status that is
    neither [complete] nor [error] are all handed to its handler, in the
    order they arrive, and leave it registered. *)
Theorem progress_updates_delivered id h statuses : forall st,
  id <> 0%Z ->
  messageHandlers st !! id = Some h ->
  forallb (fun s => negb (terminal s)) statuses = true ->
  calls (run (map (fun s => ev_message {| data_id := Some id; data_status := s |})
                statuses) st)
  = calls st ++ map (fun s => (h, {| data_id := Some id; data_status := s |})) statuses
  /\ messageHandlers
       (run (map (fun s => ev_message {| data_id := Some id; data_status := s |})
               statuses) st)
     = messageHandlers st.
Proof.
  intros st Hid. revert st.
  induction statuses as [|s statuses IH]; intros st Hh Hall.
  - cbn. now rewrite app_nil_r.
  - cbn [forallb] in Hall. apply andb_true_iff in Hall as [Hs Hall].
    apply negb_true_iff in Hs. cbn [map].
    set (data := {| data_id := Some id; data_status := s |}).
    change (run (ev_message data :: ?l) st) with (run l (onmessage data st)).
    destruct (onmessage_registered st id h s Hid Hh) as (Hcalls & Hkeep).
    rewrite Hs in Hkeep. fold data in Hcalls, Hkeep.
    assert (Hh' : messageHandlers (onmessage data st) !! id = Some h)
      by now rewrite Hkeep.
    destruct (IH _ Hh' Hall) as (IHc & IHm).
    rewrite IHc, IHm, Hcalls, Hkeep. split; [|reflexivity].
    now rewrite <- List.app_assoc.
Qed.

(** No callback hands anything to [ws.send]. *)
Lemma handle_keeps_sent st e : sent (handle e st) = sent st.
Proof.
  destruct e as [|data| | |]; cbn [handle]; try reflexivity.
  - unfold onmessage.
    destruct (truthy (data_id data)); [|reflexivity].
    destruct (messageHandlers st !! _); [|reflexivity].
    cbn [log]. destruct (terminal _); reflexivity.
  - unfold onclose. cbv zeta. cbn [reconnectAttempts log].
    destruct (_ <? _)%nat; reflexivity.
Qed.

Lemma run_keeps_sent evs : forall st, sent (run evs st) = sent st.
Proof.
  induction evs as [|e evs IH]; intros st; [reflexivity|].
  change (run (e :: evs) st) with (run evs (handle e st)).
  now rewrite IH, handle_keeps_sent.
Qed.

Lemma run_handlers_subset evs : forall st id h,
  messageHandlers (run evs st) !! id = Some h ->
  messageHandlers st !! id = Some h.
Proof.
  induction evs as [|e evs IH]; intros st id h; [easy|].
  change (run (e :: evs) st) with (run evs (handle e st)).
  intros H. apply IH in H. now apply (handle_handlers_subset st e).
Qed.

(** The console plays no part in what the callbacks call. *)
Lemma run_calls_console evs : forall (s1 s2 : State Handler Payload),
  ws s1 = ws s2 -> isConnected s1 = isConnected s2 ->
  messageHandlers s1 = messageHandlers s2 ->
  reconnectTimeout s1 = reconnectTimeout s2 ->
  reconnectAttempts s1 = reconnectAttempts s2 ->
  sent s1 = sent s2 -> calls s1 = calls s2 ->
  calls (run evs s1) = calls (run evs s2).
Proof.
  induction evs as [|e evs IH]; intros s1 s2 H1 H2 H3 H4 H5 H6 H7; [exact H7|].
  change (run (e :: evs) ?s) with (run evs (handle e s)).
  apply IH; destruct e as [|data| | |]; cbn [handle];
    unfold onopen, onmessage, onerror, onclose, ontimeout, connect, log, set_handlers;
    cbn; rewrite <- ?H1, <- ?H2, <- ?H3, <- ?H4, <- ?H5, <- ?H6, <- ?H7;
    repeat case_match; cbn; congruence.
Qed.

(** A message given to [sendMessage] while the socket is not open is
    lost for good: the result is [null], and whatever happens to the
    connection afterwards the message is never handed to the socket, its
    handler is never registered and no call is made on its behalf. *)
Theorem send_while_disconnected_is_lost st now message onResponse :
  ws st <> Some OPEN ->
  fst (sendMessage now message onResponse st) = None
  /\ forall evs,
       let st' := run evs (snd (sendMessage now message onResponse st)) in
       sent st' = sent st
       /\ calls st' = calls (run evs st)
       /\ forall id h, messageHandlers st' !! id = Some h ->
                       messageHandlers st !! id = Some h.
Proof.
  intros Hclosed.
  assert (Hsend : sendMessage now message onResponse st
                  = (None, log _ _ log_not_connected st)).
  { unfold sendMessage. destruct (ws st) as [[| | |]|]; try reflexivity.
    now contradiction Hclosed. }
  rewrite Hsend. split; [reflexivity|]. intros evs st'. subst st'. cbn [snd].
  split; [now rewrite run_keeps_sent|]. split.
  - apply run_calls_console; reflexivity.
  - intros id h H. now apply run_handlers_subset in H.
Qed.

(** The request id is the clock: two requests sent in the same
    millisecond share it.  Both are handed to the socket under that id, the
    second handler takes the place of the first, and the response is given
    to the second handler alone. *)
Theorem same_millisecond_requests_collide st now m1 m2 h1 h2 status :
  ws st = Some OPEN ->
  now <> 0%Z ->
  let st1 := snd (sendMessage now m1 (Some h1) st) in
  let st2 := snd (sendMessage now m2 (Some h2) st1) in
  let data := {| data_id := Some now; data_status := status |} in
  fst (sendMessage now m1 (Some h1) st) = fst (sendMessage now m2 (Some h2) st1)
  /\ sent st2 = sent st ++ [(now, m1); (now, m2)]
  /\ messageHandlers st2 !! now = Some h2
  /\ calls (onmessage data st2) = calls st ++ [(h2, data)].
Proof.
  intros Hopen Hnow st1 st2 data.
  assert (Hopen1 : ws st1 = Some OPEN).
  { subst st1. unfold sendMessage. rewrite Hopen. exact Hopen. }
  destruct (sendMessage_open st now m1 h1 Hopen) as (Hid1 & Hreg1 & Hc1).
  destruct (sendMessage_open st1 now m2 h2 Hopen1) as (Hid2 & Hreg2 & Hc2).
  fold st1 in Hreg1, Hc1. fold st2 in Hreg2, Hc2.
  assert (Hh2 : messageHandlers st2 !! now = Some h2)
    by (rewrite Hreg2; apply lookup_insert_eq).
  split; [now rewrite Hid1, Hid2|]. split; [|split; [exact Hh2|]].
  - subst st2 st1. unfold sendMessage. rewrite Hopen. cbn. rewrite Hopen. cbn.
    now rewrite <- List.app_assoc.
  - destruct (onmessage_registered st2 now h2 status Hnow Hh2) as (Hcalls & _).
    fold data in Hcalls. now rewrite Hcalls, Hc2, Hc1.
Qed.

(** *** Reconnection *)

Lemma run_app evs1 evs2 st : run (evs1 ++ evs2) st = run evs2 (run evs1 st).
Proof. unfold run. apply fold_left_app. Qed.

Lemma onclose_schedules st :
  (reconnectAttempts st < 5)%nat ->
  reconnectTimeout (onclose st) = Some (1000 * 2 ^ Z.of_nat (reconnectAttempts st))%Z
  /\ reconnectAttempts (onclose st) = reconnectAttempts st.
Proof.
  intros Hlt. unfold onclose. cbv zeta. cbn [reconnectAttempts log].
  apply Nat.ltb_lt in Hlt. unfold maxReconnectAttempts. rewrite Hlt.
  split; reflexivity.
Qed.

Lemma onclose_gives_up st :
  (5 <= reconnectAttempts st)%nat ->
  onclose st
  = log _ _ error_max_attempts
      (log _ _ log_disconnected
         {| ws := Some CLOSED; isConnected := false;
            messageHandlers := messageHandlers st;
            reconnectTimeout := reconnectTimeout st;
            reconnectAttempts := reconnectAttempts st; sent := sent st;
            calls := calls st; console := console st |}).
Proof.
  intros Hge. unfold onclose. cbv zeta. cbn [reconnectAttempts log].
  apply Nat.ltb_ge in Hge. unfold maxReconnectAttempts. rewrite Hge.
  reflexivity.
Qed.

Lemma failed_attempts_count k : forall st,
  (reconnectAttempts st + k <= 5)%nat ->
  reconnectAttempts (run (failed_attempts k) st) = (reconnectAttempts st + k)%nat.
Proof.
  induction k as [|k IH]; intros st Hle; [cbn; lia|].
  cbn [failed_attempts]. rewrite run_app, <- Nat.add_succ_comm.
  set (st1 := run (failed_attempts k) st).
  assert (H1 : reconnectAttempts st1 = (reconnectAttempts st + k)%nat)
    by (apply IH; lia).
  change (run [ev_close; ev_timeout] st1) with (ontimeout (onclose st1)).
  unfold ontimeout, connect. cbn [reconnectAttempts].
  destruct (onclose_schedules st1) as [_ ->]; lia.
Qed.

(** Reconnection backs off and gives up.  After the socket opened,
    the [k]-th close in a row that no open follows sets a timer of
    [1000 * 2^k] milliseconds, for [k] from 0 to 4; the close after the
    fifth failed attempt sets none and writes an error to the console. *)
Theorem reconnection_backs_off_then_gives_up st k :
  (k <= 5)%nat ->
  let st' := run (failed_attempts k) (onopen st) in
  reconnectAttempts st' = k
  /\ (if (k <? 5)%nat
      then reconnectTimeout (onclose st') = Some (1000 * 2 ^ Z.of_nat k)%Z
      else reconnectTimeout (onclose st') = reconnectTimeout st'
           /\ console (onclose st')
              = console st' ++ [log_disconnected; error_max_attempts]).
Proof.
  intros Hk st'.
  assert (Hn : reconnectAttempts st' = k).
  { subst st'. rewrite failed_attempts_count; cbn [onopen reconnectAttempts]; lia. }
  split; [exact Hn|].
  destruct (Nat.ltb_spec k 5) as [Hlt|Hge].
  - destruct (onclose_schedules st') as [-> _]; [lia | now rewrite Hn].
  - rewrite onclose_gives_up by lia. cbn. now rewrite <- List.app_assoc.
Qed.

(** The cleanup of the effect does not end the reconnection.  It
    clears the timer and closes the socket; the [close] event that follows
    runs [onclose], which, with attempts left, sets a new timer, and that
    timer opens a new socket. *)
Theorem cleanup_does_not_stop_reconnection st :
  ws st = Some OPEN ->
  (reconnectAttempts st < 5)%nat ->
  ws (cleanup st) = Some CLOSING
  /\ reconnectTimeout (cleanup st) = None
  /\ reconnectTimeout (run [ev_close] (cleanup st))
     = Some (1000 * 2 ^ Z.of_nat (reconnectAttempts st))%Z
  /\ ws (run [ev_close; ev_timeout] (cleanup st)) = Some CONNECTING.
Proof.
  intros Hopen Hlt. split; [|split; [|split]].
  - unfold cleanup. now rewrite Hopen.
  - reflexivity.
  - change (run [ev_close] (cleanup st)) with (onclose (cleanup st)).
    now destruct (onclose_schedules (cleanup st) Hlt) as [-> _].
  - reflexivity.
Qed.

End transport_invariants.

Section transport_invariants_examples.
Import useWebSocket.

(** Three progress reports for the pending request of the examples. *)
Lemma progress_updates_delivered_witness :
  calls (run (map (fun s => ev_message {| data_id := Some examples.request_id;
                                          data_status := s |})
                ["received"; "processing"; "processing"])
           examples.one_pending)
  = [(7%nat, {| data_id := Some examples.request_id; data_status := "received" |});
     (7%nat, {| data_id := Some examples.request_id; data_status := "processing" |});
     (7%nat, {| data_id := Some examples.request_id; data_status := "processing" |})].
Proof.
  assert (Hid : examples.request_id <> 0%Z) by discriminate.
  assert (Hh : messageHandlers examples.one_pending !! examples.request_id = Some 7%nat)
    by reflexivity.
  exact (proj1 (progress_updates_delivered examples.request_id 7%nat
                  ["received"; "processing"; "processing"]
                  examples.one_pending Hid Hh eq_refl)).
Defined.

(** A message sent before the socket has opened. *)
Lemma send_while_disconnected_is_lost_witness :
  fst (sendMessage examples.request_id "select" (Some 7%nat)
         (connect (@initial nat string))) = None
  /\ sent (run [ev_open]
             (snd (sendMessage examples.request_id "select" (Some 7%nat)
                     (connect initial)))) = [].
Proof.
  assert (Hclosed : ws (connect (@initial nat string)) <> Some OPEN) by discriminate.
  destruct (send_while_disconnected_is_lost (connect initial) examples.request_id
              "select" (Some 7%nat) Hclosed) as (Hnull & Hlost).
  split; [exact Hnull|]. exact (proj1 (Hlost [ev_open])).
Defined.

(** Two selections sent in the same millisecond. *)
Lemma same_millisecond_requests_collide_witness :
  let st2 := snd (sendMessage examples.request_id "second" (Some 8%nat)
                    examples.one_pending) in
  messageHandlers st2 !! examples.request_id = Some 8%nat
  /\ calls (onmessage examples.completed st2) = [(8%nat, examples.completed)].
Proof.
  assert (Hopen : ws examples.connected = Some OPEN) by reflexivity.
  assert (Hnow : examples.request_id <> 0%Z) by discriminate.
  destruct (same_millisecond_requests_collide examples.connected examples.request_id
              "select" "second" 7%nat 8%nat "complete" Hopen Hnow)
    as (_ & _ & Hreg & Hcall).
  split; [exact Hreg | exact Hcall].
Defined.

(** The fifth close in a row waits sixteen seconds. *)
Lemma reconnection_backs_off_then_gives_up_witness :
  reconnectTimeout
    (onclose (run (failed_attempts 4) (onopen examples.one_pending)))
  = Some 16000%Z.
Proof.
  assert (Hk : (4 <= 5)%nat) by lia.
  exact (proj2 (reconnection_backs_off_then_gives_up examples.one_pending 4 Hk)).
Defined.

(** The connection of the examples, unmounted. *)
Lemma cleanup_does_not_stop_reconnection_witness :
  ws (run [ev_close; ev_timeout] (cleanup examples.connected)) = Some CONNECTING.
Proof.
  assert (Hopen : ws examples.connected = Some OPEN) by reflexivity.
  assert (Hlt : (reconnectAttempts examples.connected < 5)%nat) by (cbn; lia).
  exact (proj2 (proj2 (proj2
           (cleanup_does_not_stop_reconnection examples.connected Hopen Hlt)))).
Defined.

End transport_invariants_examples.

(* ===================================================================== *)
(** ** Further properties of the checkpoint manager                       *)
(* ===================================================================== *)

Section manager_frame.
Import gostrings git.
Implicit Types (E : Env) (r : Repo) (c : Cmd).

(** *** What the manager leaves alone *)

Lemma keeps_refl b r : keeps b r r.
Proof. split; [reflexivity | now exists []]. Qed.

Lemma keeps_trans b r1 r2 r3 : keeps b r1 r2 -> keeps b r2 r3 -> keeps b r1 r3.
Proof.
  intros (Hb1 & n1 & Ho1) (Hb2 & n2 & Ho2). split; [congruence|].
  exists (n2 ++ n1). now rewrite Ho2, Ho1, List.app_assoc.
Qed.

Lemma keeps_set_trees b r0 r idx wt : keeps b r0 r -> keeps b r0 (set_trees idx wt r).
Proof. exact id. Qed.

Lemma keeps_set_merge_head b r0 r m : keeps b r0 r -> keeps b r0 (set_merge_head m r).
Proof. exact id. Qed.

Lemma keeps_set_HEAD b r0 r hd : keeps b r0 r -> keeps b r0 (set_HEAD hd r).
Proof. exact id. Qed.

Lemma keeps_add_object b r0 r (obj : CommitObj) :
  keeps b r0 r -> keeps b r0 (add_object obj r).
Proof.
  intros (Hb & new & Ho). split; [exact Hb|].
  exists (obj :: new). cbn. now rewrite Ho.
Qed.

Lemma keeps_move_head b r0 r h :
  HEAD r <> OnBranch b -> keeps b r0 r -> keeps b r0 (move_head h r).
Proof.
  intros Hhead (Hb & new & Ho). unfold move_head.
  destruct (HEAD r) as [b0|h0] eqn:Hh; (split; [|now exists new]); cbn; [|exact Hb].
  rewrite lookup_insert_ne; [exact Hb | congruence].
Qed.

(** A command other than [branch b] leaves the branch [b] alone when
    [HEAD] is not on it, and removes no commit. *)
Lemma git_keeps E envVars c r b :
  HEAD r <> OnBranch b ->
  c <> branch b ->
  keeps b r (after (git E envVars c r)).
Proof.
  intros Hhead Hc.
  destruct c; cbn [git];
    unfold git_branch, git_merge, git_commit, git_reset_hard, git_checkout, git_log;
    repeat case_match; cbn [after ok failed];
    repeat first
      [ apply keeps_refl
      | apply keeps_set_trees | apply keeps_set_merge_head | apply keeps_set_HEAD
      | apply keeps_move_head; [exact Hhead|]
      | apply keeps_add_object ].
  split; [|now exists []]. cbn. rewrite lookup_insert_ne; [reflexivity | congruence].
Qed.

(** [checkout] moves no branch and removes no commit. *)
Lemma checkout_keeps E envVars rev r b :
  keeps b r (after (git E envVars (checkout rev) r)).
Proof.
  cbn [git]. unfold git_checkout.
  repeat case_match; cbn [after ok failed];
    repeat first [apply keeps_refl | apply keeps_set_trees | apply keeps_set_HEAD].
Qed.

(** [branch name] leaves every other branch alone. *)
Lemma branch_keeps E envVars name r b :
  name <> b -> keeps b r (after (git E envVars (branch name) r)).
Proof.
  intros Hne. cbn [git]. unfold git_branch.
  repeat case_match; cbn [after ok failed]; try apply keeps_refl.
  split; [|now exists []]. cbn. now rewrite lookup_insert_ne.
Qed.

Lemma HEAD_move_head_off h r b :
  HEAD r <> OnBranch b -> HEAD (move_head h r) <> OnBranch b.
Proof. unfold move_head. now destruct (HEAD r). Qed.

(** No command but [checkout] puts [HEAD] on a branch it was not on. *)
Lemma git_keeps_off E envVars c r b :
  (forall rev, c <> checkout rev) ->
  HEAD r <> OnBranch b ->
  HEAD (after (git E envVars c r)) <> OnBranch b.
Proof.
  intros Hc Hoff.
  destruct c; cbn [git];
    try (now contradiction (Hc rev));
    unfold git_branch, git_merge, git_commit, git_reset_hard, git_log;
    repeat case_match; cbn; try apply HEAD_move_head_off; cbn; congruence.
Qed.

Lemma mergeIntoMain_keeps E currentBranch r b :
  HEAD r <> OnBranch b ->
  keeps b r (snd (mergeIntoMain E currentBranch r)).
Proof.
  intros Hoff.
  unfold mergeIntoMain. destruct (negb _); [|apply keeps_refl].
  rewrite bind_run. cbn [runGitCommand fst snd].
  set (r1 := after (git E [] (merge_ff_only currentBranch) r)).
  assert (K1 : keeps b r r1) by (apply git_keeps; [exact Hoff | discriminate]).
  assert (H1 : HEAD r1 <> OnBranch b)
    by (apply git_keeps_off; [discriminate | exact Hoff]).
  destruct (is_err _); [|exact K1].
  rewrite bind_run. cbn [runGitCommand fst snd].
  assert (K2 : keeps b r1 (after (git E [] (merge currentBranch) r1)))
    by (apply git_keeps; [exact H1 | discriminate]).
  destruct (is_err _); cbn [ret snd]; exact (keeps_trans _ _ _ _ K1 K2).
Qed.

Lemma switchToMain_keeps E currentBranch r b :
  b <> "main" -> keeps b r (snd (switchToMain E currentBranch r)).
Proof.
  intros Hb. unfold switchToMain.
  rewrite bind_run. cbn [runGitCommand fst snd]. rewrite rev_parse_verify_after.
  rewrite bind_run.
  match goal with
  | |- context [fst (?m r)] => set (run1 := m r)
  end.
  assert (K1 : keeps b r (snd run1)).
  { subst run1. destruct (is_err _); [|apply keeps_refl].
    cbn [runGitCommand snd]. apply branch_keeps. congruence. }
  destruct run1 as [err1 r1]. cbn [fst snd] in *.
  destruct (is_err err1); [exact K1|].
  rewrite bind_run. cbn [runGitCommand fst snd].
  pose proof (checkout_keeps E [] "main" r1 b) as K2.
  destruct (is_err _) eqn:Hco; cbn [ret snd].
  - exact (keeps_trans _ _ _ _ K1 K2).
  - apply is_err_ExitError in Hco.
    eapply keeps_trans; [exact K1|]. eapply keeps_trans; [exact K2|].
    apply mergeIntoMain_keeps.
    destruct (checkout_main_head E [] r1 Hco) as [->|(_ & t & _ & ->)]; congruence.
Qed.

Lemma ensureMainBranch_keeps E r b :
  b <> "main" -> keeps b r (snd (ensureMainBranch E r)).
Proof.
  intros Hb. unfold ensureMainBranch.
  rewrite bind_run, current_branch_output.
  destruct (HEAD r) as [b0|h].
  - destruct (branches r !! b0); cbn [fst snd is_err ret]; [|apply keeps_refl].
    destruct (String.eqb _ "main"); [apply keeps_refl|].
    now apply switchToMain_keeps.
  - cbn [fst snd is_err]. destruct (String.eqb _ "main"); [apply keeps_refl|].
    now apply switchToMain_keeps.
Qed.

Lemma mergeIntoMain_keeps_off E currentBranch r b :
  HEAD r <> OnBranch b ->
  HEAD (snd (mergeIntoMain E currentBranch r)) <> OnBranch b.
Proof.
  intros Hoff. unfold mergeIntoMain. destruct (negb _); [|exact Hoff].
  rewrite bind_run. cbn [runGitCommand fst snd].
  assert (H1 : HEAD (after (git E [] (merge_ff_only currentBranch) r)) <> OnBranch b)
    by (apply git_keeps_off; [discriminate | exact Hoff]).
  destruct (is_err _); [|exact H1].
  rewrite bind_run. cbn [runGitCommand fst snd].
  assert (H2 : HEAD (after (git E [] (merge currentBranch)
                 (after (git E [] (merge_ff_only currentBranch) r)))) <> OnBranch b)
    by (apply git_keeps_off; [discriminate | exact H1]).
  destruct (is_err _); exact H2.
Qed.

(** Where [HEAD] is after [switchToMain] returned [nil]: on [main], or,
    when [main] is a tag only, detached. *)
Lemma switchToMain_head E currentBranch r r' :
  switchToMain E currentBranch r = (None, r') ->
  forall b, b <> "main" -> HEAD r' <> OnBranch b.
Proof.
  intros Hsw b Hb. revert Hsw.
  assert (Htail : forall r0,
    (let* err := runGitCommand E (checkout "main") in
     if is_err err then ret (Errorf "failed to checkout main branch" err)
     else mergeIntoMain E currentBranch) r0 = (None, r') ->
    HEAD r' <> OnBranch b).
  { intros r0. rewrite bind_run. cbn [runGitCommand fst snd].
    destruct (is_err _) eqn:Hco; [failed_run|].
    apply is_err_ExitError in Hco. intros Hrun.
    pose proof (mergeIntoMain_keeps_off E currentBranch
                  (after (git E [] (checkout "main") r0)) b) as Hkeep.
    rewrite Hrun in Hkeep. cbn [snd] in Hkeep. apply Hkeep.
    destruct (checkout_main_head E [] r0 Hco) as [->|(_ & t & _ & ->)]; congruence. }
  unfold switchToMain. rewrite bind_run. cbn [runGitCommand fst snd].
  destruct (is_err (ExitError (exit_status (git E [] (rev_parse_verify "main") r)))).
  - rewrite bind_run. cbn [runGitCommand fst snd].
    destruct (is_err _); [failed_run|]. apply Htail.
  - rewrite bind_run. cbn [ret fst snd is_err]. apply Htail.
Qed.

(** After [ensureMainBranch] returned [nil], [HEAD] is on no branch it
    was not on before, [main] apart. *)
Lemma ensureMainBranch_head E r r1 :
  ensureMainBranch E r = (None, r1) ->
  forall b, b <> "main" -> HEAD r <> OnBranch b -> HEAD r1 <> OnBranch b.
Proof.
  unfold ensureMainBranch. rewrite bind_run, current_branch_output.
  destruct (HEAD r) as [b0|h] eqn:Hhead.
  - destruct (branches r !! b0); cbn [fst snd is_err]; [|failed_run].
    destruct (String.eqb _ "main").
    + unfold ret. intros [= <-] b _ Hoff. now rewrite Hhead.
    + intros H b Hb _. exact (switchToMain_head _ _ _ _ H b Hb).
  - cbn [fst snd is_err]. rewrite TrimSpace_HEAD.
    change (String.eqb "HEAD" "main") with false. cbv iota.
    intros H b Hb _. exact (switchToMain_head _ _ _ _ H b Hb).
Qed.

(** The manager moves no branch but [main] and the one that is
    checked out, and removes no commit: whatever [ensureMainBranch],
    [CreateCommit] and [CheckoutCommit] return, every other branch points
    where it did, and the commits of the repository are still there. *)
Theorem other_branches_untouched E r b :
  b <> "main" ->
  keeps b r (snd (ensureMainBranch E r))
  /\ (HEAD r <> OnBranch b ->
      (forall message, keeps b r (snd (CreateCommit E message r)))
      /\ (forall commitHash, keeps b r (snd (CheckoutCommit E commitHash r)))).
Proof.
  intros Hb. split; [now apply ensureMainBranch_keeps|].
  intros Hhead.
  pose proof (ensureMainBranch_keeps E r b Hb) as K1.
  pose proof (ensureMainBranch_head E r) as Hh.
  split.
  - intros message. unfold CreateCommit. rewrite bind_run.
    destruct (ensureMainBranch E r) as [[e|] r1]; cbn [fst snd is_err ret] in *;
      [exact K1|].
    assert (Hoff : HEAD r1 <> OnBranch b) by exact (Hh r1 eq_refl b Hb Hhead).
    rewrite bind_run. cbn [runGitCommand fst snd].
    set (r2 := after (git E [] add_dot r1)).
    assert (K2 : keeps b r1 r2) by (apply git_keeps; [exact Hoff | discriminate]).
    destruct (is_err _); cbn [ret snd]; [exact (keeps_trans _ _ _ _ K1 K2)|].
    rewrite bind_run. cbn [runGitCommandWithEnv fst snd].
    match goal with
    | |- context [git E ?env (commit_m message) r2] =>
        assert (K3 : keeps b r2 (after (git E env (commit_m message) r2)))
          by (apply git_keeps; [exact Hoff | discriminate])
    end.
    destruct (is_err _); cbn [ret snd];
      exact (keeps_trans _ _ _ _ K1 (keeps_trans _ _ _ _ K2 K3)).
  - intros commitHash. unfold CheckoutCommit. rewrite bind_run.
    destruct (ensureMainBranch E r) as [[e|] r1]; cbn [fst snd is_err ret] in *;
      [exact K1|].
    assert (Hoff : HEAD r1 <> OnBranch b) by exact (Hh r1 eq_refl b Hb Hhead).
    cbn [runGitCommand snd].
    eapply keeps_trans; [exact K1|]. apply git_keeps; [exact Hoff | discriminate].
Qed.


End manager_frame.

Section manager_frame_examples.
Import gostrings git.

(** A checkpoint made on [main] leaves the branch [other] of the examples
    where it is. *)
Lemma other_branches_untouched_witness :
  branches (snd (CreateCommit examples.env "fix typo" examples.with_future_branch))
    !! "other" = Some examples.id9.
Proof.
  assert (Hb : "other" <> "main") by discriminate.
  assert (Hhead : HEAD examples.with_future_branch <> OnBranch "other") by discriminate.
  destruct (other_branches_untouched examples.env examples.with_future_branch
              "other" Hb) as (_ & Hops).
  destruct (Hops Hhead) as (Hcreate & _).
  destruct (Hcreate "fix typo") as (Hbranch & _).
  rewrite Hbranch. reflexivity.
Defined.


End manager_frame_examples.

Section branch_integration.
Import gostrings git.
Implicit Types (E : Env) (r : Repo).


Lemma branch_keeps_objects E envVars name r :
  objects (after (git E envVars (branch name) r)) = objects r.
Proof. cbn [git]. unfold git_branch. now repeat case_match. Qed.








End branch_integration.

Section branch_integration_examples.
Import gostrings git.


End branch_integration_examples.

Section first_use.
Import gostrings git.
Implicit Types (E : Env) (r : Repo).


End first_use.

Section first_use_examples.
Import gostrings git.


End first_use_examples.

(* ===================================================================== *)
(** ** The history as the log has it                                      *)
(* ===================================================================== *)

Section history_round_trip.
Import gostrings git.
Implicit Types (E : Env) (r : Repo).

(** *** Lines joined and split again *)








(** *** Trimming the output *)










(** *** The lines of the log *)





Section with_dates.
Variable E : Env.
Hypothesis dates_plain : forall date,
  contains_byte PIPE (format_aI E date) = false
  /\ contains_byte LF (format_aI E date) = false.




End with_dates.

(** *** What the log shows *)





(** *** Lines that are no entries *)

Lemma parseLines_app E l1 : forall l2 acc,
  parseLines E (l1 ++ l2) acc = parseLines E l2 (parseLines E l1 acc).
Proof.
  induction l1 as [|l l1 IH]; intros l2 acc; [reflexivity|].
  cbn [app parseLines]. destruct (String.eqb l ""); [apply IH|].
  destruct (SplitN l PIPE 5) as [|p0 [|p1 [|p2 [|p3 [|p4 [|p5 ps]]]]]]; apply IH.
Qed.

Lemma count_byte_String sep c s :
  count_byte sep (String c s)
  = ((if Ascii.eqb sep c then 1 else 0) + count_byte sep s)%nat.
Proof.
  unfold count_byte. cbn [list_ascii_of_string List.filter].
  now destruct (Ascii.eqb sep c).
Qed.

(** [SplitN] gives one piece more than there are separators, up to [n]. *)
Lemma splitNAcc_length sep s : forall n cur,
  List.length (splitNAcc s sep (S n) cur) = Nat.min (S n) (S (count_byte sep s)).
Proof.
  induction s as [|c s IH]; intros n cur.
  - destruct n; reflexivity.
  - rewrite count_byte_String. destruct n as [|n]; [reflexivity|].
    cbn [splitNAcc]. rewrite (Ascii.eqb_sym sep c).
    destruct (Ascii.eqb c sep).
    + cbn [List.length]. rewrite IH. lia.
    + rewrite IH. lia.
Qed.

(** A line of the output is an entry exactly when it has four bars
    or more.  A line with fewer, an empty one among them, is passed over
    wherever it stands, and the lines around it are read as without it; a
    line with four or more gives one entry, whatever is in its fields. *)
Theorem lines_are_entries_by_their_bars E before line after :
  ((count_byte PIPE line < 4)%nat ->
   parseLines E (before ++ line :: after) [] = parseLines E (before ++ after) [])
  /\ ((4 <= count_byte PIPE line)%nat ->
      exists entry,
        parseLines E (before ++ line :: after) []
        = parseLines E before [] ++ entry :: parseLines E after []).
Proof.
  pose proof (splitNAcc_length PIPE line 4 []) as Hlen. fold (SplitN line PIPE 5) in Hlen.
  rewrite !parseLines_app. cbn [parseLines]. split; intros Hbars.
  - destruct (String.eqb line ""); [reflexivity|].
    destruct (SplitN line PIPE 5) as [|p0 [|p1 [|p2 [|p3 [|p4 [|p5 ps]]]]]];
      try reflexivity.
    cbn [List.length] in Hlen. lia.
  - destruct (String.eqb_spec line "") as [->|_]; [cbn in Hbars; lia|].
    destruct (SplitN line PIPE 5) as [|p0 [|p1 [|p2 [|p3 [|p4 [|p5 ps]]]]]];
      cbn [List.length] in Hlen; try lia.
    eexists. rewrite (parseLines_acc E after). rewrite <- List.app_assoc. reflexivity.
Qed.

End history_round_trip.

Section history_examples.
Import gostrings git.



(** A line of progress among the lines of the log is passed over; a line
    of four bars is an entry. *)
Lemma lines_are_entries_by_their_bars_witness :
  parseLines examples.env
    ["aaaa|aaaa|Layrr|2023-11-14T22:18:20+00:00|first"; "warning: a|b"; "||||"] []
  = parseLines examples.env
      ["aaaa|aaaa|Layrr|2023-11-14T22:18:20+00:00|first"; "||||"] []
  /\ exists entry,
       parseLines examples.env ["||||"] [] = [entry].
Proof.
  split.
  - apply (proj1 (lines_are_entries_by_their_bars examples.env
                    ["aaaa|aaaa|Layrr|2023-11-14T22:18:20+00:00|first"]
                    "warning: a|b" ["||||"])).
    cbn. lia.
  - destruct (proj2 (lines_are_entries_by_their_bars examples.env [] "||||" []))
      as [entry Hentry]; [cbn; lia|].
    exists entry. exact Hentry.
Defined.

End history_examples.

(* ===================================================================== *)
(** ** The earlier revision of the manager                                *)
(* ===================================================================== *)

Section earlier_revision.
Import gostrings git.
Implicit Types (E : Env) (r : Repo).

(** A commit made while [HEAD] is detached and no merge is under way. *)
Lemma commit_on_detached E envVars message r h :
  HEAD r = Detached h ->
  MERGE_HEAD r = None ->
  exit_status (git_commit E envVars message r) = 0%Z ->
  branches (after (git_commit E envVars message r)) = branches r
  /\ exists c, objects (after (git_commit E envVars message r)) = c :: objects r
               /\ c_parents c = [h]
               /\ HEAD (after (git_commit E envVars message r)) = Detached (c_hash c).
Proof.
  intros Hhead Hmerge. unfold git_commit.
  destruct (blank message); [discriminate|].
  rewrite Hmerge. unfold head_commit. rewrite Hhead.
  destruct (bool_decide _); [discriminate|]. intros _.
  cbn [after ok]. unfold move_head. cbn [HEAD add_object]. rewrite Hhead.
  cbn. split; [reflexivity|]. eexists. split; [reflexivity|]. split; reflexivity.
Qed.

(** In the earlier revision, travelling to a commit by its name
    detaches [HEAD]: no branch moves, [GetCurrentBranch] answers [HEAD],
    and a checkpoint made from there is the child of that commit and on no
    branch: the branches are all where they were before the travel. *)
Theorem earlier_checkpoint_after_travel_is_on_no_branch E commitHash r r1 :
  branches r !! commitHash = None ->
  commitHash <> "HEAD" ->
  git_v1.CheckoutCommit E commitHash r = (None, r1) ->
  exists h,
    resolve r commitHash = Some h
    /\ HEAD r1 = Detached h
    /\ branches r1 = branches r /\ objects r1 = objects r
    /\ git_v1.GetCurrentBranch E r1 = (("HEAD", None), r1)
    /\ forall message r2,
         git_v1.CreateCommit E message r1 = (None, r2) ->
         branches r2 = branches r
         /\ exists c, objects r2 = c :: objects r
                      /\ c_parents c = [h]
                      /\ HEAD r2 = Detached (c_hash c).
Proof.
  intros Hnobranch Hne.
  unfold git_v1.CheckoutCommit, runGitCommand. cbn [git]. unfold git_checkout.
  destruct (MERGE_HEAD r) eqn:Hmerge; [discriminate|].
  rewrite Hnobranch.
  destruct (resolve r commitHash) as [h|]; [|discriminate].
  destruct (switch E _ _ r) as [[idx wt]|]; [|discriminate].
  cbn [exit_status ok after]. intros [= <-].
  exists h. split; [reflexivity|]. split; [reflexivity|].
  split; [reflexivity|]. split; [reflexivity|]. split.
  - unfold git_v1.GetCurrentBranch. rewrite bind_run, current_branch_output.
    reflexivity.
  - intros message r2. unfold git_v1.CreateCommit.
    rewrite bind_run. cbn [runGitCommand git fst snd exit_status ok after].
    change (is_err (ExitError 0)) with false. cbv iota.
    rewrite bind_run. cbn [runGitCommandWithEnv git fst snd].
    destruct (is_err _) eqn:Hexit; [failed_run|].
    apply is_err_ExitError in Hexit. unfold ret. intros [= <-].
    destruct (commit_on_detached E _ message
                (set_trees wt wt (set_trees idx wt (set_HEAD (Detached h) r))) h
                eq_refl Hmerge Hexit) as (Hbranches & c & Hobjects & Hparents & Hhead).
    split; [exact Hbranches|]. exists c. auto.
Qed.


End earlier_revision.

Section earlier_revision_examples.
Import gostrings git.

(** Travelling to the first checkpoint of the examples: [HEAD] is
    detached there, and [main] stays at the second checkpoint. *)
Lemma earlier_checkpoint_after_travel_is_on_no_branch_witness :
  exists r1,
    git_v1.CheckoutCommit examples.env examples.id1 examples.two_checkpoints = (None, r1)
    /\ HEAD r1 = Detached examples.id1
    /\ branches r1 !! "main" = Some examples.id2
    /\ git_v1.GetCurrentBranch examples.env r1 = (("HEAD", None), r1).
Proof.
  assert (Hnobranch : branches examples.two_checkpoints !! examples.id1 = None)
    by reflexivity.
  assert (Hne : examples.id1 <> "HEAD") by discriminate.
  assert (Hid : resolve examples.two_checkpoints examples.id1 = Some examples.id1)
    by reflexivity.
  set (r1 := snd (git_v1.CheckoutCommit examples.env examples.id1
                    examples.two_checkpoints)).
  assert (Hco : git_v1.CheckoutCommit examples.env examples.id1 examples.two_checkpoints
                = (None, r1)) by reflexivity.
  destruct (earlier_checkpoint_after_travel_is_on_no_branch examples.env examples.id1
              examples.two_checkpoints r1 Hnobranch Hne Hco)
    as (h & Hres & Hhead & Hbranches & _ & Hcur & _).
  rewrite Hid in Hres. injection Hres as <-.
  exists r1. split; [exact Hco|]. split; [exact Hhead|]. split; [|exact Hcur].
  rewrite Hbranches. reflexivity.
Defined.



End earlier_revision_examples.

(* ===================================================================== *)
(** ** What the formatter reads                                           *)
(* ===================================================================== *)

Section formatter_inputs.
Import gostrings bridge.

Lemma formatElements_ext els1 : forall els2 i total parts,
  map elementDesc els1 = map elementDesc els2 ->
  formatElements i total els1 parts = formatElements i total els2 parts.
Proof.
  induction els1 as [|el1 els1 IH]; intros [|el2 els2] i total parts Hmap;
    try discriminate; [reflexivity|].
  cbn [map] in Hmap.
  assert (Hel : elementDesc el1 = elementDesc el2) by congruence.
  assert (Hrest : map elementDesc els1 = map elementDesc els2) by congruence.
  rewrite !formatElements_cons, Hel. destruct (_ && _); [reflexivity|].
  now apply IH.
Qed.

(** The text for the CLI is made of the instruction, the announced
    count, the width and height of the area, and the selector, inner text
    and markup of the elements.  The screenshot, the id of the message, the
    position of the area and the tag, id and classes of the elements play
    no part: two messages that agree on the former give the same text. *)
Theorem formatMessage_reads_only m1 m2 :
  Instruction m1 = Instruction m2 ->
  ElementCount (Area m1) = ElementCount (Area m2) ->
  Width (Area m1) = Width (Area m2) ->
  Height (Area m1) = Height (Area m2) ->
  map (fun el => (Selector el, InnerText el, OuterHTML el)) (Elements (Area m1))
  = map (fun el => (Selector el, InnerText el, OuterHTML el)) (Elements (Area m2)) ->
  formatMessage m1 = formatMessage m2.
Proof.
  intros Hi Hc Hw Hh Hels. unfold formatMessage, formatParts, areaClause.
  rewrite Hi, Hc, Hw, Hh.
  assert (Hlen : List.length (Elements (Area m1)) = List.length (Elements (Area m2))).
  { apply (f_equal (@List.length _)) in Hels. now rewrite !length_map in Hels. }
  rewrite Hlen. f_equal. f_equal. apply formatElements_ext.
  apply (f_equal (map (fun t : string * string * string =>
           "[" +:+ t.1.1 +:+ innerTextClause t.1.2 +:+ outerHTMLClause t.2 +:+ "]")))
    in Hels.
  rewrite !map_map in Hels. exact Hels.
Qed.

End formatter_inputs.

Section formatter_inputs_examples.
Import gostrings bridge.

(** The card and the button of the examples, selected in two places. *)
Lemma formatMessage_reads_only_witness :
  formatMessage examples.msg_card_and_button_elsewhere
  = formatMessage examples.msg_card_and_button.
Proof.
  apply formatMessage_reads_only; reflexivity.
Defined.

End formatter_inputs_examples.

(* ===================================================================== *)
(** ** Properties of the list of checkpoints                              *)
(* ===================================================================== *)

Section history_modal.
Import GitHistoryModal.

Local Open Scope Z_scope.

Lemma div_ltb d k n : 0 < k -> (d / k <? n) = (d <? k * n).
Proof.
  intros Hk. destruct (Z.ltb_spec (d / k) n) as [H|H];
    destruct (Z.ltb_spec d (k * n)) as [H'|H']; try reflexivity; exfalso.
  - apply (Z.div_le_lower_bound d k n Hk) in H'. lia.
  - apply (Z.div_lt_upper_bound d k n Hk) in H'. lia.
Qed.

Lemma one_ltb_div d k : 0 < k -> (1 <? d / k) = negb (d <? k * 2).
Proof.
  intros Hk. rewrite <- (div_ltb d k 2 Hk).
  destruct (Z.ltb_spec 1 (d / k)); destruct (Z.ltb_spec (d / k) 2); cbn; lia.
Qed.

(** What [formatDate] shows, by the milliseconds [d] elapsed since
    the date: [just now] under a minute, a date in the future included;
    whole minutes under an hour, whole hours under a day, whole days under
    a week, with an [s] from two units on; the date as the browser writes
    it from a week on. *)
Theorem formatDate_by_elapsed_time toLocaleDateString now date :
  let d := now - date in
  formatDate toLocaleDateString now (Some date) =
    if d <? 60000 then "just now"
    else if d <? 3600000 then
      toString (d / 60000) +:+ " min" +:+ (if d <? 120000 then "" else "s") +:+ " ago"
    else if d <? 86400000 then
      toString (d / 3600000) +:+ " hour" +:+ (if d <? 7200000 then "" else "s") +:+ " ago"
    else if d <? 604800000 then
      toString (d / 86400000) +:+ " day" +:+ (if d <? 172800000 then "" else "s") +:+ " ago"
    else toLocaleDateString date.
Proof.
  intros d. unfold formatDate. fold d. cbv zeta.
  rewrite !div_ltb, !one_ltb_div by lia.
  change (60000 * 1) with 60000. change (60000 * 60) with 3600000.
  change (3600000 * 24) with 86400000. change (86400000 * 7) with 604800000.
  change (60000 * 2) with 120000. change (3600000 * 2) with 7200000.
  change (86400000 * 2) with 172800000.
  destruct (d <? 60000); [reflexivity|].
  destruct (d <? 3600000); [now destruct (d <? 120000)|].
  destruct (d <? 86400000); [now destruct (d <? 7200000)|].
  destruct (d <? 604800000); [now destruct (d <? 172800000)|].
  reflexivity.
Qed.

Local Close Scope Z_scope.

(** A click on a row starts a switch only when none is running. *)
Lemma handle_one_switch e st :
  (isSwitching st = false /\ awaiting st = [])
  \/ (isSwitching st = true /\ exists h, awaiting st = [h]) ->
  (isSwitching (handle e st) = false /\ awaiting (handle e st) = [])
  \/ (isSwitching (handle e st) = true /\ exists h, awaiting (handle e st) = [h]).
Proof.
  intros [[Hs Ha]|[Hs [h Ha]]]; destruct e as [commitHash commitShortHash|outcome];
    cbn [handle]; unfold handleCheckout, resume; rewrite ?Hs, ?Ha; cbn.
  - right. eauto.
  - now left.
  - right. rewrite Hs, Ha. eauto.
  - destruct outcome; now left.
Qed.

(** One switch at a time.  Whatever is clicked and whenever the
    calls of [SwitchToGitCommit] return, at most one of them is awaiting
    its result, and [isSwitching] says whether one is: a click on a row
    while a switch is running does nothing. *)
Theorem one_switch_at_a_time evs :
  let st := run evs initial in
  (isSwitching st = false /\ awaiting st = [])
  \/ (isSwitching st = true /\ exists h, awaiting st = [h]).
Proof.
  cbv zeta. unfold run. rewrite <- fold_left_rev_right.
  induction (rev evs) as [|e l IH]; cbn [fold_right].
  - now left.
  - now apply handle_one_switch.
Qed.

End history_modal.

(* ===================================================================== *)
(** ** Properties of the form of a new checkpoint                         *)
(* ===================================================================== *)

Section checkpoint_modal.
Import GitCheckpointModal.

Lemma handleCreate_awaiting st :
  awaiting (handleCreate st)
  = awaiting st ++ (if not (trim (message st)) then [] else [message st]).
Proof.
  unfold handleCreate. destruct (not (trim (message st))); cbn;
    [now rewrite app_nil_r | reflexivity].
Qed.

Lemma handleCreate_message st : message (handleCreate st) = message st.
Proof. unfold handleCreate. now destruct (not _). Qed.

Lemma handle_submits_no_blank e st :
  Forall (fun m => not (trim m) = false) (awaiting st) ->
  Forall (fun m => not (trim m) = false) (awaiting (handle e st)).
Proof.
  intros Hall.
  assert (Hcreate : Forall (fun m => not (trim m) = false) (awaiting (handleCreate st))).
  { rewrite handleCreate_awaiting. apply Forall_app. split; [exact Hall|].
    destruct (not (trim (message st))) eqn:Hm; repeat constructor. exact Hm. }
  destruct e as [value|key metaKey ctrlKey| | |outcome]; cbn [handle].
  - exact Hall.
  - unfold handleKeyDown. destruct (_ && _); [exact Hcreate|].
    destruct (String.eqb key "Escape"); exact Hall.
  - destruct (_ || _); [exact Hall | exact Hcreate].
  - exact Hall.
  - unfold resume. destruct (awaiting st) as [|m rest] eqn:Ha; [now rewrite Ha|].
    inversion Hall; subst. now destruct outcome.
Qed.

(** A message that is empty once trimmed is never given to
    [CreateGitCheckpoint]: whatever is typed, pressed and clicked, the
    messages of the calls that await their result are not blank. *)
Theorem blank_message_is_never_submitted evs :
  Forall (fun m => not (trim m) = false) (awaiting (run evs initial)).
Proof.
  unfold run. rewrite <- fold_left_rev_right.
  induction (rev evs) as [|e l IH]; cbn [fold_right]; [constructor|].
  now apply handle_submits_no_blank.
Qed.

(** The button submits once, the keyboard as often as it is
    pressed.  With a message that is not blank, Ctrl+Enter pressed twice
    calls [CreateGitCheckpoint] twice with the message as typed, whether or
    not a creation is under way; the button, disabled while one is, calls
    it once for two clicks. *)
Theorem keyboard_submits_while_creating st :
  not (trim (message st)) = false ->
  awaiting (run [keyDown "Enter" false true; keyDown "Enter" false true] st)
  = awaiting st ++ [message st; message st]
  /\ (isCreating st = false ->
      awaiting (run [clickCreate; clickCreate] st) = awaiting st ++ [message st]).
Proof.
  intros Hm.
  assert (Hcreate : handleCreate st
                    = {| message := message st; isCreating := true; error := "";
                         awaiting := awaiting st ++ [message st];
                         called := called st |})
    by (unfold handleCreate; now rewrite Hm).
  split.
  - cbn [run fold_left handle handleKeyDown String.eqb Ascii.eqb Bool.eqb andb orb].
    change (String.eqb "Enter" "Enter") with true. cbn [andb].
    rewrite handleCreate_awaiting, handleCreate_message, Hm, Hcreate. cbn.
    now rewrite <- List.app_assoc.
  - intros Hidle. cbn [run fold_left handle]. rewrite Hidle, Hm. cbn [orb].
    rewrite Hcreate. reflexivity.
Qed.

End checkpoint_modal.

Section modal_examples.

(** Six hours and a half ago. *)
Lemma formatDate_example :
  GitHistoryModal.formatDate (fun _ => "Nov 14, 2023") 1700000300000
    (Some 1699976900000%Z) = "6 hours ago".
Proof. reflexivity. Qed.

(** Ctrl+Enter twice on the message of the examples. *)
Lemma keyboard_submits_while_creating_witness :
  GitCheckpointModal.awaiting
    (GitCheckpointModal.run
       [GitCheckpointModal.change examples.fix_typo;
        GitCheckpointModal.keyDown "Enter" false true;
        GitCheckpointModal.keyDown "Enter" false true]
       GitCheckpointModal.initial)
  = [examples.fix_typo; examples.fix_typo].
Proof.
  set (st := GitCheckpointModal.handle (GitCheckpointModal.change examples.fix_typo)
               GitCheckpointModal.initial).
  assert (Hm : GitCheckpointModal.not
                 (GitCheckpointModal.trim (GitCheckpointModal.message st)) = false)
    by reflexivity.
  exact (proj1 (keyboard_submits_while_creating st Hm)).
Defined.

End modal_examples.
